(** * Cpp-Wave-Loader: a shallow embedding of [wave_loader.hpp]

    The header defines the record [WaveFile], the host byte-order probe
    [is_big_endian], the integer decoder [convert_to_int] and the loader
    [LoadeWaveFile].  Each is transcribed below as an executable Rocq
    definition; the theorems in the second half of the file are stated
    about these definitions.

    Conventions of the embedding:
    - a [char] is a [Byte.byte]; [int] and [short] are [Z] values kept in
      the 32-bit and 16-bit two's-complement ranges, and the conversion
      from [int] to [short] wraps around;
    - an [int] object in memory is a list of four bytes whose meaning
      depends on the byte order of the host;
    - the [std::ifstream] is the list of bytes not yet extracted together
      with its [good()] flag (on a POSIX host the default text mode
      delivers the bytes of the file unchanged); [file_path] is
      represented by what the file system holds there;
    - [char buffer[4]] is not initialised by the loader: it starts with
      four arbitrary characters, a parameter of the loader;
    - [new char[n]] yields an array of [n] indeterminate cells; since the
      only write to such an array is one [read] filling a prefix, an array
      is its capacity and its initialised prefix;
    - the heap is unbounded, so that an array of any size [n >= 0] is
      allocated; a negative [n] makes [new char[n]] throw, since the
      size it asks for is beyond what any allocation can give.  The
      exception is a [std::bad_alloc]: g++ raises it as such for a [char]
      array, and the [std::bad_array_new_length] that the C++11 rule for
      a negative length names is a class derived from it;
      [delete _extra_data] is taken to release the array;
    - the statements of the loader are written in a state-and-exception
      monad over the stream, the buffer, standard output and the record. *)

From Stdlib Require Import String.
From Stdlib Require Import Strings.Byte.
From Stdlib Require Import ZArith List Bool Lia.
Import ListNotations.
Local Open Scope Z_scope.

(** ** Characters, native integers and object representation *)

Module Native.

(** The value of a [char] seen as [unsigned char]. *)
Definition uchar (b : byte) : Z := Z.of_N (Byte.to_N b).

(** The [char] holding the low eight bits of [z]. *)
Definition char_of_Z (z : Z) : byte :=
  match Byte.of_N (Z.to_N (z mod 256)) with
  | Some b => b
  | None => x00
  end.

(** Two's-complement wrap-around to a signed integer of [bits] bits. *)
Definition wrap (bits z : Z) : Z :=
  let r := z mod 2 ^ bits in
  if r <? 2 ^ (bits - 1) then r else r - 2 ^ bits.

(** Conversion to [int] and the narrowing conversion [int -> short]. *)
Definition to_int : Z -> Z := wrap 32.
Definition to_short : Z -> Z := wrap 16.

(** Byte order of the host the program runs on. *)
Inductive byte_order : Set := little_endian | big_endian.

(** Bit position, inside an [int], of the byte stored at address [i]. *)
Definition significance (h : byte_order) (i : Z) : Z :=
  match h with
  | little_endian => 8 * i
  | big_endian => 8 * (3 - i)
  end.

(** [buf[i]]; an index outside the array is undefined behaviour in C++
    and reads [x00] here (no call site of the header does it). *)
Definition peek (buf : list byte) (i : Z) : byte :=
  if i <? 0 then x00 else nth (Z.to_nat i) buf x00.

(** [mem[i] = b]; a store outside the object is undefined behaviour in
    C++ and does nothing here. *)
Fixpoint poke_nat (mem : list byte) (i : nat) (b : byte) : list byte :=
  match mem, i with
  | [], _ => []
  | _ :: m, O => b :: m
  | c :: m, S j => c :: poke_nat m j b
  end.

Definition poke (mem : list byte) (i : Z) (b : byte) : list byte :=
  if i <? 0 then mem else poke_nat mem (Z.to_nat i) b.

(** The four bytes of an [int] object holding [v], by increasing address. *)
Definition int_object (h : byte_order) (v : Z) : list byte :=
  map (fun i => char_of_Z (Z.shiftr v (significance h i))) [0; 1; 2; 3].

(** The [int] value held by a four-byte object. *)
Definition int_of_object (h : byte_order) (mem : list byte) : Z :=
  to_int
    (fold_right
       (fun i acc => Z.shiftl (uchar (peek mem i)) (significance h i) + acc)
       0 [0; 1; 2; 3]).

(** Little-endian reading of a byte span as an unsigned number. *)
Fixpoint le_unsigned (span : list byte) : Z :=
  match span with
  | [] => 0
  | b :: rest => uchar b + 256 * le_unsigned rest
  end.

End Native.
Import Native.

(** ** [is_big_endian] and [convert_to_int] *)

(** [int a = 1; return !((char* )&a)[0];] *)
Definition is_big_endian (h : byte_order) : Z :=
  let a := int_object h 1 in
  if uchar (peek a 0) =? 0 then 1 else 0.

(** The indices visited by [for (int i = 0; i < len; i++)]. *)
Definition loop_indices (len : Z) : list Z :=
  map Z.of_nat (seq 0 (Z.to_nat len)).

Definition convert_to_int (h : byte_order) (buffer : list byte) (len : Z) : Z :=
  let a := int_object h 0 in
  let a' :=
    if is_big_endian h =? 0
    then fold_left (fun a i => poke a i (peek buffer i)) (loop_indices len) a
    else fold_left (fun a i => poke a (3 - i) (peek buffer i)) (loop_indices len) a
  in
  int_of_object h a'.

(** ** The record [WaveFile] *)

(** [new char[n]]: [capacity] cells, of which [initialized] (a prefix) have
    been written; the cells after the prefix are indeterminate. *)
Record char_array : Set := {
  capacity : Z;
  initialized : list byte
}.

(** Field by field as in the header; [data] is a pointer, [None] being the
    null pointer of a value-initialised record. *)
Record WaveFile : Set := {
  chunk_id : Z;
  chunk_size : Z;
  format : Z;
  subchunk_1_id : Z;
  subchunk_1_size : Z;
  audio_format : Z;
  num_channels : Z;
  sample_rate : Z;
  byte_rate : Z;
  block_align : Z;
  bits_per_sample : Z;
  subchunk_2_id : Z;
  subchunk_2_size : Z;
  data : option char_array
}.

(** [new WaveFile()] value-initialises every member. *)
Definition new_WaveFile : WaveFile :=
  {| chunk_id := 0; chunk_size := 0; format := 0; subchunk_1_id := 0;
     subchunk_1_size := 0; audio_format := 0; num_channels := 0;
     sample_rate := 0; byte_rate := 0; block_align := 0;
     bits_per_sample := 0; subchunk_2_id := 0; subchunk_2_size := 0;
     data := None |}.

(** [w->field = v], one definition per member the loader assigns.  The
    [short] members receive the [int] result of the decoder through the
    narrowing conversion. *)
Definition set_chunk_id (v : Z) (w : WaveFile) : WaveFile :=
  {| chunk_id := v; chunk_size := w.(chunk_size); format := w.(format);
     subchunk_1_id := w.(subchunk_1_id); subchunk_1_size := w.(subchunk_1_size);
     audio_format := w.(audio_format); num_channels := w.(num_channels);
     sample_rate := w.(sample_rate); byte_rate := w.(byte_rate);
     block_align := w.(block_align); bits_per_sample := w.(bits_per_sample);
     subchunk_2_id := w.(subchunk_2_id); subchunk_2_size := w.(subchunk_2_size);
     data := w.(data) |}.
Definition set_chunk_size (v : Z) (w : WaveFile) : WaveFile :=
  {| chunk_id := w.(chunk_id); chunk_size := v; format := w.(format);
     subchunk_1_id := w.(subchunk_1_id); subchunk_1_size := w.(subchunk_1_size);
     audio_format := w.(audio_format); num_channels := w.(num_channels);
     sample_rate := w.(sample_rate); byte_rate := w.(byte_rate);
     block_align := w.(block_align); bits_per_sample := w.(bits_per_sample);
     subchunk_2_id := w.(subchunk_2_id); subchunk_2_size := w.(subchunk_2_size);
     data := w.(data) |}.
Definition set_format (v : Z) (w : WaveFile) : WaveFile :=
  {| chunk_id := w.(chunk_id); chunk_size := w.(chunk_size); format := v;
     subchunk_1_id := w.(subchunk_1_id); subchunk_1_size := w.(subchunk_1_size);
     audio_format := w.(audio_format); num_channels := w.(num_channels);
     sample_rate := w.(sample_rate); byte_rate := w.(byte_rate);
     block_align := w.(block_align); bits_per_sample := w.(bits_per_sample);
     subchunk_2_id := w.(subchunk_2_id); subchunk_2_size := w.(subchunk_2_size);
     data := w.(data) |}.
Definition set_subchunk_1_id (v : Z) (w : WaveFile) : WaveFile :=
  {| chunk_id := w.(chunk_id); chunk_size := w.(chunk_size); format := w.(format);
     subchunk_1_id := v; subchunk_1_size := w.(subchunk_1_size);
     audio_format := w.(audio_format); num_channels := w.(num_channels);
     sample_rate := w.(sample_rate); byte_rate := w.(byte_rate);
     block_align := w.(block_align); bits_per_sample := w.(bits_per_sample);
     subchunk_2_id := w.(subchunk_2_id); subchunk_2_size := w.(subchunk_2_size);
     data := w.(data) |}.
Definition set_audio_format (v : Z) (w : WaveFile) : WaveFile :=
  {| chunk_id := w.(chunk_id); chunk_size := w.(chunk_size); format := w.(format);
     subchunk_1_id := w.(subchunk_1_id); subchunk_1_size := w.(subchunk_1_size);
     audio_format := to_short v; num_channels := w.(num_channels);
     sample_rate := w.(sample_rate); byte_rate := w.(byte_rate);
     block_align := w.(block_align); bits_per_sample := w.(bits_per_sample);
     subchunk_2_id := w.(subchunk_2_id); subchunk_2_size := w.(subchunk_2_size);
     data := w.(data) |}.
Definition set_num_channels (v : Z) (w : WaveFile) : WaveFile :=
  {| chunk_id := w.(chunk_id); chunk_size := w.(chunk_size); format := w.(format);
     subchunk_1_id := w.(subchunk_1_id); subchunk_1_size := w.(subchunk_1_size);
     audio_format := w.(audio_format); num_channels := to_short v;
     sample_rate := w.(sample_rate); byte_rate := w.(byte_rate);
     block_align := w.(block_align); bits_per_sample := w.(bits_per_sample);
     subchunk_2_id := w.(subchunk_2_id); subchunk_2_size := w.(subchunk_2_size);
     data := w.(data) |}.
Definition set_sample_rate (v : Z) (w : WaveFile) : WaveFile :=
  {| chunk_id := w.(chunk_id); chunk_size := w.(chunk_size); format := w.(format);
     subchunk_1_id := w.(subchunk_1_id); subchunk_1_size := w.(subchunk_1_size);
     audio_format := w.(audio_format); num_channels := w.(num_channels);
     sample_rate := v; byte_rate := w.(byte_rate);
     block_align := w.(block_align); bits_per_sample := w.(bits_per_sample);
     subchunk_2_id := w.(subchunk_2_id); subchunk_2_size := w.(subchunk_2_size);
     data := w.(data) |}.
Definition set_byte_rate (v : Z) (w : WaveFile) : WaveFile :=
  {| chunk_id := w.(chunk_id); chunk_size := w.(chunk_size); format := w.(format);
     subchunk_1_id := w.(subchunk_1_id); subchunk_1_size := w.(subchunk_1_size);
     audio_format := w.(audio_format); num_channels := w.(num_channels);
     sample_rate := w.(sample_rate); byte_rate := v;
     block_align := w.(block_align); bits_per_sample := w.(bits_per_sample);
     subchunk_2_id := w.(subchunk_2_id); subchunk_2_size := w.(subchunk_2_size);
     data := w.(data) |}.
Definition set_block_align (v : Z) (w : WaveFile) : WaveFile :=
  {| chunk_id := w.(chunk_id); chunk_size := w.(chunk_size); format := w.(format);
     subchunk_1_id := w.(subchunk_1_id); subchunk_1_size := w.(subchunk_1_size);
     audio_format := w.(audio_format); num_channels := w.(num_channels);
     sample_rate := w.(sample_rate); byte_rate := w.(byte_rate);
     block_align := to_short v; bits_per_sample := w.(bits_per_sample);
     subchunk_2_id := w.(subchunk_2_id); subchunk_2_size := w.(subchunk_2_size);
     data := w.(data) |}.
Definition set_bits_per_sample (v : Z) (w : WaveFile) : WaveFile :=
  {| chunk_id := w.(chunk_id); chunk_size := w.(chunk_size); format := w.(format);
     subchunk_1_id := w.(subchunk_1_id); subchunk_1_size := w.(subchunk_1_size);
     audio_format := w.(audio_format); num_channels := w.(num_channels);
     sample_rate := w.(sample_rate); byte_rate := w.(byte_rate);
     block_align := w.(block_align); bits_per_sample := to_short v;
     subchunk_2_id := w.(subchunk_2_id); subchunk_2_size := w.(subchunk_2_size);
     data := w.(data) |}.
Definition set_subchunk_2_id (v : Z) (w : WaveFile) : WaveFile :=
  {| chunk_id := w.(chunk_id); chunk_size := w.(chunk_size); format := w.(format);
     subchunk_1_id := w.(subchunk_1_id); subchunk_1_size := w.(subchunk_1_size);
     audio_format := w.(audio_format); num_channels := w.(num_channels);
     sample_rate := w.(sample_rate); byte_rate := w.(byte_rate);
     block_align := w.(block_align); bits_per_sample := w.(bits_per_sample);
     subchunk_2_id := v; subchunk_2_size := w.(subchunk_2_size);
     data := w.(data) |}.
Definition set_subchunk_2_size (v : Z) (w : WaveFile) : WaveFile :=
  {| chunk_id := w.(chunk_id); chunk_size := w.(chunk_size); format := w.(format);
     subchunk_1_id := w.(subchunk_1_id); subchunk_1_size := w.(subchunk_1_size);
     audio_format := w.(audio_format); num_channels := w.(num_channels);
     sample_rate := w.(sample_rate); byte_rate := w.(byte_rate);
     block_align := w.(block_align); bits_per_sample := w.(bits_per_sample);
     subchunk_2_id := w.(subchunk_2_id); subchunk_2_size := v;
     data := w.(data) |}.
Definition set_data (p : char_array) (w : WaveFile) : WaveFile :=
  {| chunk_id := w.(chunk_id); chunk_size := w.(chunk_size); format := w.(format);
     subchunk_1_id := w.(subchunk_1_id); subchunk_1_size := w.(subchunk_1_size);
     audio_format := w.(audio_format); num_channels := w.(num_channels);
     sample_rate := w.(sample_rate); byte_rate := w.(byte_rate);
     block_align := w.(block_align); bits_per_sample := w.(bits_per_sample);
     subchunk_2_id := w.(subchunk_2_id); subchunk_2_size := w.(subchunk_2_size);
     data := Some p |}.

(** ** The C library and the input stream *)

(** The characters of a string, as they lie in a file. *)
Definition bytes_of (s : string) : list byte := list_byte_of_string s.

(** A string literal: its characters and the terminating NUL. *)
Definition c_str (s : string) : list byte := bytes_of s ++ [x00].

(** [strncmp(s1, s2, n)]: compares at most [n] characters as
    [unsigned char], stopping after a NUL common to both; the result is the
    difference of the first differing pair (only its sign is specified). *)
Fixpoint strncmp (s1 s2 : list byte) (n : nat) : Z :=
  match n with
  | O => 0
  | S n' =>
      let c1 := uchar (hd x00 s1) in
      let c2 := uchar (hd x00 s2) in
      if c1 =? c2
      then if c1 =? 0 then 0 else strncmp (tl s1) (tl s2) n'
      else c1 - c2
  end.

(** [std::ifstream]: the bytes not yet extracted, and [good()]. *)
Record ifstream : Set := {
  unread : list byte;
  good : bool
}.

(** [std::ifstream file(file_path)]: [None] is a path that cannot be
    opened, which leaves the stream with [failbit] set. *)
Definition ifstream_open (content : option (list byte)) : ifstream :=
  match content with
  | Some bytes => {| unread := bytes; good := true |}
  | None => {| unread := []; good := false |}
  end.

(** [rdbuf()->sgetn(s, n)]: extracts [n] characters, or all that are left
    when fewer are; returns the extracted characters and the remainder. *)
Fixpoint sgetn (l : list byte) (n : Z) {struct l} : list byte * list byte :=
  if n <=? 0 then ([], l)
  else match l with
       | [] => ([], [])
       | b :: l' => let (got, rest) := sgetn l' (n - 1) in (b :: got, rest)
       end.

(** [istream::read(s, n)], returning what was stored at [s].  A stream
    that is not [good()] extracts nothing; extracting a count different
    from [n] sets [eofbit | failbit]. *)
Definition istream_read (f : ifstream) (n : Z) : list byte * ifstream :=
  if f.(good)
  then let (got, rest) := sgetn f.(unread) n in
       (got, {| unread := rest; good := Z.of_nat (length got) =? n |})
  else ([], f).

(** The destination after [got] was stored at its start. *)
Definition store_prefix (got dest : list byte) : list byte :=
  got ++ skipn (length got) dest.

(** ** The statements of [LoadeWaveFile] *)

(** What the body of the loader reads and writes: the stream, the local
    [char buffer[4]], the text sent to standard output, and the record
    behind [wave_file]. *)
Record state : Type := {
  file : ifstream;
  buffer : list byte;
  console : list string;
  wave_file : WaveFile
}.

(** The one exception the body can raise: the [std::bad_alloc] of a
    [new char[n]] with [n < 0] (a compiler that checks the length raises
    its derived class [std::bad_array_new_length]; the model does not
    tell the two apart). *)
Inductive exn : Set := bad_alloc.

Inductive result (A : Type) : Type :=
| Normal (a : A) (s : state)
| Raised (e : exn) (s : state).
Arguments Normal {A} a s.
Arguments Raised {A} e s.

Definition M (A : Type) : Type := state -> result A.

Definition ret {A : Type} (a : A) : M A := fun s => Normal a s.

Definition bind {A B : Type} (m : M A) (k : A -> M B) : M B :=
  fun s =>
    match m s with
    | Normal a s' => k a s'
    | Raised e s' => Raised e s'
    end.

Notation "x <- m ;; k" := (bind m (fun x => k))
  (at level 61, m at next level, right associativity).
Notation "m ;; k" := (bind m (fun _ => k))
  (at level 61, right associativity).

(** State updates: the stream and the buffer after a [read]; the record
    after an assignment; standard output after a [printf]. *)
Definition with_io (f : ifstream) (b : list byte) (s : state) : state :=
  {| file := f; buffer := b; console := s.(console); wave_file := s.(wave_file) |}.

Definition with_file (f : ifstream) (s : state) : state :=
  {| file := f; buffer := s.(buffer); console := s.(console);
     wave_file := s.(wave_file) |}.

Definition with_wave_file (w : WaveFile) (s : state) : state :=
  {| file := s.(file); buffer := s.(buffer); console := s.(console);
     wave_file := w |}.

Definition with_output (msg : string) (s : state) : state :=
  {| file := s.(file); buffer := s.(buffer); console := s.(console) ++ [msg];
     wave_file := s.(wave_file) |}.

(** [file.read(buffer, n)] *)
Definition file_read (n : Z) : M unit :=
  fun s =>
    let (got, f) := istream_read s.(file) n in
    Normal tt (with_io f (store_prefix got s.(buffer)) s).

(** [file.read(p, n)] for a heap array [p]; returns the array afterwards. *)
Definition file_read_into (p : char_array) (n : Z) : M char_array :=
  fun s =>
    let (got, f) := istream_read s.(file) n in
    Normal {| capacity := p.(capacity);
              initialized := store_prefix got p.(initialized) |}
           (with_file f s).

(** [new char[n]] *)
Definition new_char_array (n : Z) : M char_array :=
  fun s =>
    if n <? 0 then Raised bad_alloc s
    else Normal {| capacity := n; initialized := [] |} s.

(** [printf(msg)] *)
Definition printf (msg : string) : M unit :=
  fun s => Normal tt (with_output msg s).

(** The current contents of [buffer]. *)
Definition get_buffer : M (list byte) := fun s => Normal s.(buffer) s.

(** [wave_file->member = v], the member being chosen by its setter. *)
Definition assign (set : Z -> WaveFile -> WaveFile) (v : Z) : M unit :=
  fun s => Normal tt (with_wave_file (set v s.(wave_file)) s).

(** [wave_file->data = p] *)
Definition assign_data (p : char_array) : M unit :=
  fun s => Normal tt (with_wave_file (set_data p s.(wave_file)) s).

(** The value of [wave_file->subchunk_2_size], and the record itself. *)
Definition get_subchunk_2_size : M Z :=
  fun s => Normal s.(wave_file).(subchunk_2_size) s.

Definition get_wave_file : M WaveFile := fun s => Normal s.(wave_file) s.

Definition when (c : bool) (m : M unit) : M unit := if c then m else ret tt.

Definition RIFF : list byte := c_str "RIFF".
Definition data_tag : list byte := c_str "data".
Definition not_valid_message : string :=
  "This is not valid WAV file!"%string.

Section Loader.

(** The byte order of the machine the loader runs on. *)
Variable host : byte_order.

(** [convert_to_int(buffer, len)] on the local buffer. *)
Definition decode (len : Z) : M Z :=
  fun s => Normal (convert_to_int host s.(buffer) len) s.

(** Lines 127-133: the RIFF magic.  A mismatch prints a diagnostic and
    nothing else; the four characters are decoded into [chunk_id] in
    both cases. *)
Definition read_magic : M unit :=
  file_read 4 ;;
  buf <- get_buffer ;;
  when (negb (strncmp buf RIFF 4 =? 0)) (printf not_valid_message) ;;
  v <- decode 4 ;; assign set_chunk_id v.

(** The pair of lines [file.read(buffer, len);
    wave_file->member = convert_to_int(buffer, len);] *)
Definition read_field (len : Z) (set : Z -> WaveFile -> WaveFile) : M unit :=
  file_read len ;;
  v <- decode len ;; assign set v.

(** Lines 127-151: the magic and the nine fields that follow it. *)
Definition read_fixed_fields : M unit :=
  read_magic ;;
  read_field 4 set_chunk_size ;;
  read_field 4 set_format ;;
  read_field 4 set_subchunk_1_id ;;
  read_field 2 set_audio_format ;;
  read_field 2 set_num_channels ;;
  read_field 4 set_sample_rate ;;
  read_field 4 set_byte_rate ;;
  read_field 2 set_block_align ;;
  read_field 2 set_bits_per_sample.

(** Lines 153-166: the branch on the lookahead held by [buffer].  When
    it is not "data", an extra chunk is skipped: its length is read and
    decoded, an array of that length is allocated and read into (and
    released before the branch ends), and the next four characters are
    decoded into [subchunk_2_id]. *)
Definition skip_extra_chunk : M unit :=
  buf <- get_buffer ;;
  if negb (strncmp buf data_tag 4 =? 0)
  then
    file_read 4 ;;
    _extra_size <- decode 4 ;;
    _extra_data <- new_char_array _extra_size ;;
    _ <- file_read_into _extra_data _extra_size ;;
    read_field 4 set_subchunk_2_id
  else
    v <- decode 4 ;; assign set_subchunk_2_id v.

(** Lines 152-166: the four-character lookahead and the branch on it. *)
Definition locate_data_chunk : M unit :=
  file_read 4 ;;
  skip_extra_chunk.

(** Lines 168-171: the size of the payload and the payload. *)
Definition read_data_chunk : M unit :=
  read_field 4 set_subchunk_2_size ;;
  size <- get_subchunk_2_size ;;
  p <- new_char_array size ;;
  p' <- file_read_into p size ;;
  assign_data p'.

Definition LoadeWaveFile_body : M WaveFile :=
  read_fixed_fields ;;
  locate_data_chunk ;;
  read_data_chunk ;;
  get_wave_file.

(** Lines 134-151: the nine fields after the magic. *)
Definition read_fields_after_magic : M unit :=
  read_field 4 set_chunk_size ;;
  read_field 4 set_format ;;
  read_field 4 set_subchunk_1_id ;;
  read_field 2 set_audio_format ;;
  read_field 2 set_num_channels ;;
  read_field 4 set_sample_rate ;;
  read_field 4 set_byte_rate ;;
  read_field 2 set_block_align ;;
  read_field 2 set_bits_per_sample.

(** Lines 134-173: everything the body does once the magic has been
    compared and decoded. *)
Definition after_magic : M WaveFile :=
  read_fields_after_magic ;;
  locate_data_chunk ;;
  read_data_chunk ;;
  get_wave_file.

(** Lines 168-173: what is left to do once [subchunk_2_id] is assigned. *)
Definition after_data_chunk_located : M WaveFile :=
  read_data_chunk ;;
  get_wave_file.

(** The state on entry: a value-initialised record, the stream just
    opened, nothing printed, and [buffer] holding whatever the stack
    held ([stack], four arbitrary characters). *)
Definition entry_state (stack : byte * byte * byte * byte)
    (content : option (list byte)) : state :=
  let '(g0, g1, g2, g3) := stack in
  {| file := ifstream_open content; buffer := [g0; g1; g2; g3];
     console := []; wave_file := new_WaveFile |}.

(** [LoadeWaveFile(file_path)], where [content] is what the file system
    holds at [file_path]. *)
Definition LoadeWaveFile (stack : byte * byte * byte * byte)
    (content : option (list byte)) : result WaveFile :=
  LoadeWaveFile_body (entry_state stack content).

End Loader.

(** The record handed to the caller, if the loader returns. *)
Definition returned (r : result WaveFile) : option WaveFile :=
  match r with
  | Normal w _ => Some w
  | Raised _ _ => None
  end.

(** The state in which the body of the loader stopped. *)
Definition final_state {A : Type} (r : result A) : state :=
  match r with
  | Normal _ s => s
  | Raised _ s => s
  end.

(** ** Assertions about the statements *)

(** [m] keeps the assertion [P], whether it finishes or raises. *)
Definition preserves {A : Type} (P : state -> Prop) (m : M A) : Prop :=
  forall s, P s -> P (final_state (m s)).

(** [m] never raises. *)
Definition total {A : Type} (m : M A) : Prop :=
  forall s, exists a s', m s = Normal a s'.

(** [m] asks the stream for [n] characters in all: if the stream is
    still good afterwards, it was good before and exactly [n] characters
    were extracted. *)
Definition consumes {A : Type} (m : M A) (n : Z) : Prop :=
  forall s a s',
    m s = Normal a s' ->
    s'.(file).(good) = true ->
    s.(file).(good) = true /\
    Z.of_nat (length s.(file).(unread))
    = Z.of_nat (length s'.(file).(unread)) + n.

(** Assertions that do not look at the stream or the buffer, at what was
    printed, or at the member written by a given setter. *)
Definition ignores_io (P : state -> Prop) : Prop :=
  forall s f b, P s -> P (with_io f b s).

Definition ignores_output (P : state -> Prop) : Prop :=
  forall s msg, P s -> P (with_output msg s).

Definition ignores_member (P : state -> Prop)
    (set : Z -> WaveFile -> WaveFile) : Prop :=
  forall s v, P s -> P (with_wave_file (set v s.(wave_file)) s).

Definition ignores_data (P : state -> Prop) : Prop :=
  forall s p, P s -> P (with_wave_file (set_data p s.(wave_file)) s).

(** The stream can deliver nothing more: it is not [good()]. *)
Definition drained (s : state) : Prop := s.(file).(good) = false.

(** ** Little-endian values and the byte layout of a WAVE file *)

(** The signed number a byte span denotes when read little-endian at its
    own width (16 bits for two bytes, 32 bits for four). *)
Definition le_signed (span : list byte) : Z :=
  wrap (8 * Z.of_nat (length span)) (le_unsigned span).

(** The [n] low-order bytes of [v], least significant first. *)
Fixpoint le_bytes (n : nat) (v : Z) : list byte :=
  match n with
  | O => []
  | S n' => char_of_Z v :: le_bytes n' (Z.shiftr v 8)
  end.

(** The initialised cells of the payload of a record. *)
Definition payload (w : WaveFile) : list byte :=
  match w.(data) with
  | Some p => p.(initialized)
  | None => []
  end.

(** Modelled from the spec: the repository has no writer, so the
    serialisation used as the round-trip reference is the binary layout
    table of the specification (ChunkID, ChunkSize, Format, Subchunk1ID,
    Subchunk1Size, AudioFormat, NumChannels, SampleRate, ByteRate,
    BlockAlign, BitsPerSample, Subchunk2ID, Subchunk2Size, payload), every
    integer little-endian at its width. *)
Definition layout_serialize (w : WaveFile) : list byte :=
  le_bytes 4 w.(chunk_id) ++ le_bytes 4 w.(chunk_size) ++
  le_bytes 4 w.(format) ++ le_bytes 4 w.(subchunk_1_id) ++
  le_bytes 4 w.(subchunk_1_size) ++
  le_bytes 2 w.(audio_format) ++ le_bytes 2 w.(num_channels) ++
  le_bytes 4 w.(sample_rate) ++ le_bytes 4 w.(byte_rate) ++
  le_bytes 2 w.(block_align) ++ le_bytes 2 w.(bits_per_sample) ++
  le_bytes 4 w.(subchunk_2_id) ++ le_bytes 4 w.(subchunk_2_size) ++
  payload w.

(** Some cell of the payload array was never written (or there is no
    array at all): the record is only partially populated. *)
Definition partially_populated (w : WaveFile) : bool :=
  match w.(data) with
  | Some p => Z.of_nat (length p.(initialized)) <? p.(capacity)
  | None => true
  end.

(** The [len] bytes of [l] that start at offset [off]. *)
Definition slice (off len : nat) (l : list byte) : list byte :=
  firstn len (skipn off l).

(** The record after lines 127-151 when the stream delivers the
    thirty-two bytes [fields]: the offsets at which the loader takes each
    member.  The members it has not assigned yet keep their value in [w]. *)
Definition fixed_fields_of (fields : list byte) (w : WaveFile) : WaveFile :=
  {| chunk_id := le_signed (slice 0 4 fields);
     chunk_size := le_signed (slice 4 4 fields);
     format := le_signed (slice 8 4 fields);
     subchunk_1_id := le_signed (slice 12 4 fields);
     subchunk_1_size := w.(subchunk_1_size);
     audio_format := le_signed (slice 16 2 fields);
     num_channels := le_signed (slice 18 2 fields);
     sample_rate := le_signed (slice 20 4 fields);
     byte_rate := le_signed (slice 24 4 fields);
     block_align := le_signed (slice 28 2 fields);
     bits_per_sample := le_signed (slice 30 2 fields);
     subchunk_2_id := w.(subchunk_2_id);
     subchunk_2_size := w.(subchunk_2_size);
     data := w.(data) |}.

(** The widths of the reads into [buffer] at lines 127-152, in order: the
    magic, the nine fields after it, and the lookahead. *)
Definition header_reads : list nat := [4; 4; 4; 4; 2; 2; 4; 4; 2; 2; 4]%nat.

(** [buffer] after the reads of [widths] on [stream], up to and including
    the first one that the stream cannot serve in full.  A read that is
    served stores its bytes at the start of [buffer]; the short one stores
    the bytes that are left, and the cells after them keep what the
    previous reads put there. *)
Fixpoint refill (widths : list nat) (stream buf : list byte) : list byte :=
  match widths with
  | [] => buf
  | k :: widths' =>
      if (length stream <? k)%nat
      then store_prefix stream buf
      else refill widths' (skipn k stream) (store_prefix (firstn k stream) buf)
  end.

(** The bytes from which the member read at offset [off], [len] bytes
    wide, is decoded on a stream that ends inside the fixed fields or the
    lookahead: its own bytes when the stream holds them all, and otherwise
    the first [len] characters of [stale], the buffer as the short read
    left it. *)
Definition member_bytes (stream stale : list byte) (off len : nat) : list byte :=
  if (off + len <=? length stream)%nat then slice off len stream
  else firstn len stale.

(** The record after lines 127-151 on such a stream. *)
Definition cut_fields_of (stream stale : list byte) (w : WaveFile) : WaveFile :=
  {| chunk_id := le_signed (member_bytes stream stale 0 4);
     chunk_size := le_signed (member_bytes stream stale 4 4);
     format := le_signed (member_bytes stream stale 8 4);
     subchunk_1_id := le_signed (member_bytes stream stale 12 4);
     subchunk_1_size := w.(subchunk_1_size);
     audio_format := le_signed (member_bytes stream stale 16 2);
     num_channels := le_signed (member_bytes stream stale 18 2);
     sample_rate := le_signed (member_bytes stream stale 20 4);
     byte_rate := le_signed (member_bytes stream stale 24 4);
     block_align := le_signed (member_bytes stream stale 28 2);
     bits_per_sample := le_signed (member_bytes stream stale 30 2);
     subchunk_2_id := w.(subchunk_2_id);
     subchunk_2_size := w.(subchunk_2_size);
     data := w.(data) |}.

(** The stream is exhausted, and [buffer] holds [stale]. *)
Definition exhausted (stale : list byte) (out : list string) (w : WaveFile) : state :=
  {| file := {| unread := []; good := false |}; buffer := stale;
     console := out; wave_file := w |}.

(** What the loader prints for a stream starting with [tag]. *)
Definition diagnostics (tag : list byte) : list string :=
  if strncmp tag RIFF 4 =? 0 then [] else [not_valid_message].

(** [located prefix id]: the two shapes of a stream start on which the
    loader finds a data chunk.  Either the thirty-two bytes of the fixed
    fields are followed by "data"; or they are followed by another tag,
    a length, as many bytes as that length says, and four bytes [id]. *)
Inductive located : list byte -> list byte -> Prop :=
| located_lookahead (fields : list byte) :
    length fields = 32%nat ->
    located (fields ++ bytes_of "data") (bytes_of "data")
| located_after_extra (fields tag len body id : list byte) :
    length fields = 32%nat ->
    length tag = 4%nat ->
    tag <> bytes_of "data" ->
    length len = 4%nat ->
    le_signed len = Z.of_nat (length body) ->
    length id = 4%nat ->
    located (fields ++ tag ++ len ++ body ++ id) id.

(** ** Sample streams *)

(** The minimal canonical mono 8-bit PCM file (48 bytes). *)
Definition minimal_pcm : list byte :=
  bytes_of "RIFF" ++ [x2c; x00; x00; x00] ++ bytes_of "WAVE" ++
  bytes_of "fmt " ++ [x10; x00; x00; x00] ++
  [x01; x00] ++ [x01; x00] ++ [x40; x1f; x00; x00] ++ [x40; x1f; x00; x00] ++
  [x01; x00] ++ [x08; x00] ++
  bytes_of "data" ++ [x04; x00; x00; x00] ++ [x01; x02; x03; x04].

(** The same file with the magic "RIFX". *)
Definition rifx_pcm : list byte := bytes_of "RIFX" ++ skipn 4 minimal_pcm.

(** The same file cut off immediately after the "fmt " tag. *)
Definition cut_after_fmt : list byte := firstn 16 minimal_pcm.

(** The thirty-two bytes the loader takes for the fixed fields: the
    canonical header without its Subchunk1Size. *)
Definition fixed_fields_pcm : list byte :=
  bytes_of "RIFF" ++ [x28; x00; x00; x00] ++ bytes_of "WAVE" ++
  bytes_of "fmt " ++
  [x01; x00] ++ [x01; x00] ++ [x40; x1f; x00; x00] ++ [x40; x1f; x00; x00] ++
  [x01; x00] ++ [x08; x00].

(** A data chunk announcing eight bytes and holding three. *)
Definition short_payload : list byte :=
  fixed_fields_pcm ++ bytes_of "data" ++ [x08; x00; x00; x00] ++ [x01; x02; x03].

(** An extra chunk "LIST" announcing two bytes where one is left. *)
Definition short_extension : list byte :=
  fixed_fields_pcm ++ bytes_of "LIST" ++ [x02; x00; x00; x00] ++ [xaa].

Definition zero_stack : byte * byte * byte * byte := (x00, x00, x00, x00).

(** * Properties *)

(** ** The integer decoder *)

Lemma uchar_range (b : byte) : 0 <= uchar b < 256.
Proof.
  unfold uchar. pose proof (Byte.to_N_bounded b). lia.
Qed.

Lemma object_value_little (b0 b1 b2 b3 : byte) :
  int_of_object little_endian [b0; b1; b2; b3]
  = to_int (le_unsigned [b0; b1; b2; b3]).
Proof.
  unfold int_of_object. f_equal.
  cbv [fold_right significance].
  change (peek [b0; b1; b2; b3] 0) with b0.
  change (peek [b0; b1; b2; b3] 1) with b1.
  change (peek [b0; b1; b2; b3] 2) with b2.
  change (peek [b0; b1; b2; b3] 3) with b3.
  rewrite !Z.shiftl_mul_pow2 by lia.
  cbn [le_unsigned].
  change (2 ^ (8 * 0)) with 1. change (2 ^ (8 * 1)) with 256.
  change (2 ^ (8 * 2)) with 65536. change (2 ^ (8 * 3)) with 16777216.
  lia.
Qed.

(** On a big-endian host the most significant byte has the lowest
    address, so the object [[b3; b2; b1; b0]] holds the same number. *)
Lemma object_value_big (b0 b1 b2 b3 : byte) :
  int_of_object big_endian [b3; b2; b1; b0]
  = to_int (le_unsigned [b0; b1; b2; b3]).
Proof.
  unfold int_of_object. f_equal.
  cbv [fold_right significance].
  change (peek [b3; b2; b1; b0] 0) with b3.
  change (peek [b3; b2; b1; b0] 1) with b2.
  change (peek [b3; b2; b1; b0] 2) with b1.
  change (peek [b3; b2; b1; b0] 3) with b0.
  rewrite !Z.shiftl_mul_pow2 by lia.
  cbn [le_unsigned].
  change (2 ^ (8 * (3 - 3))) with 1. change (2 ^ (8 * (3 - 2))) with 256.
  change (2 ^ (8 * (3 - 1))) with 65536. change (2 ^ (8 * (3 - 0))) with 16777216.
  lia.
Qed.

(** Both loops of [convert_to_int] leave the same number in [a]. *)
Lemma convert_to_int_4 (h : byte_order) (b0 b1 b2 b3 : byte) (rest : list byte) :
  convert_to_int h (b0 :: b1 :: b2 :: b3 :: rest) 4
  = to_int (le_unsigned [b0; b1; b2; b3]).
Proof.
  destruct h.
  - rewrite <- object_value_little. reflexivity.
  - rewrite <- object_value_big. reflexivity.
Qed.

Lemma to_int_small (z : Z) : 0 <= z < 2 ^ 31 -> to_int z = z.
Proof.
  intros Hz. unfold to_int, wrap.
  rewrite Z.mod_small by lia.
  destruct (z <? 2 ^ (32 - 1)) eqn:E; [reflexivity | ].
  apply Z.ltb_ge in E. change (32 - 1) with 31 in E. lia.
Qed.

Lemma convert_to_int_2 (h : byte_order) (b0 b1 : byte) (rest : list byte) :
  convert_to_int h (b0 :: b1 :: rest) 2 = le_unsigned [b0; b1].
Proof.
  assert (E : convert_to_int h (b0 :: b1 :: rest) 2
              = to_int (le_unsigned [b0; b1; x00; x00])).
  { destruct h.
    - rewrite <- object_value_little. reflexivity.
    - rewrite <- object_value_big. reflexivity. }
  rewrite E. cbn [le_unsigned].
  change (uchar x00) with 0.
  pose proof (uchar_range b0). pose proof (uchar_range b1).
  rewrite to_int_small by lia. lia.
Qed.

Lemma le_signed_4 (b0 b1 b2 b3 : byte) :
  le_signed [b0; b1; b2; b3] = to_int (le_unsigned [b0; b1; b2; b3]).
Proof. reflexivity. Qed.

Lemma le_signed_2 (b0 b1 : byte) :
  le_signed [b0; b1] = to_short (le_unsigned [b0; b1]).
Proof. reflexivity. Qed.

(** The probe tells the two hosts apart, so each host runs its own loop. *)
Lemma is_big_endian_probe :
  is_big_endian big_endian = 1 /\ is_big_endian little_endian = 0.
Proof. split; reflexivity. Qed.

(** C2 — endian independence: on every byte span of length 2 or 4 the
    decoder run on a big-endian host (its second loop, storing at
    [3 - i]) returns the same integer as the decoder run on a
    little-endian host (its first loop, storing at [i]). *)
Theorem convert_to_int_host_independent (buffer : list byte) (len : Z) :
  len = 2 \/ len = 4 ->
  len <= Z.of_nat (length buffer) ->
  convert_to_int big_endian buffer len = convert_to_int little_endian buffer len.
Proof.
  intros [-> | ->] Hlen.
  - destruct buffer as [| b0 [| b1 rest]]; cbn [length] in Hlen; try lia.
    now rewrite !convert_to_int_2.
  - destruct buffer as [| b0 [| b1 [| b2 [| b3 rest]]]];
      cbn [length] in Hlen; try lia.
    now rewrite !convert_to_int_4.
Qed.

Lemma convert_to_int_host_independent_witness :
  (4 = 2 \/ 4 = 4) /\
  4 <= Z.of_nat (length [x78; x56; x34; xf2]) /\
  convert_to_int big_endian [x78; x56; x34; xf2] 4
  = convert_to_int little_endian [x78; x56; x34; xf2] 4.
Proof.
  split; [right; reflexivity | split; [simpl; lia | ]].
  apply (convert_to_int_host_independent [x78; x56; x34; xf2] 4);
    [right; reflexivity | simpl; lia].
Defined.

(** C3, as stated, fails for spans of length 2: the decoder returns an
    [int] whose two upper bytes stay zero, so [0xFF 0xFF] decodes to
    65535, not to the 16-bit signed reading -1. *)
Lemma convert_to_int_2_not_sign_extended :
  convert_to_int little_endian [xff; xff] 2 = 65535 /\
  le_signed [xff; xff] = -1 /\
  convert_to_int little_endian [xff; xff] 2 <> le_signed [xff; xff].
Proof.
  split; [reflexivity | split; [reflexivity | ]].
  intros H. vm_compute in H. discriminate H.
Qed.

(** C3 (amended) — on either host, a span of length 4 decodes to its
    signed 32-bit little-endian reading; a span of length 2 decodes to
    its unsigned 16-bit little-endian reading (0..65535), and it is the
    narrowing conversion at the assignment to a [short] member that
    yields the signed 16-bit reading. *)
Theorem convert_to_int_little_endian_value
    (h : byte_order) (b0 b1 b2 b3 : byte) (rest : list byte) :
  convert_to_int h [b0; b1; b2; b3] 4 = le_signed [b0; b1; b2; b3] /\
  convert_to_int h (b0 :: b1 :: rest) 2 = le_unsigned [b0; b1] /\
  0 <= convert_to_int h (b0 :: b1 :: rest) 2 < 65536 /\
  to_short (convert_to_int h (b0 :: b1 :: rest) 2) = le_signed [b0; b1].
Proof.
  rewrite convert_to_int_4, convert_to_int_2, le_signed_4, le_signed_2.
  repeat split; try reflexivity;
    cbn [le_unsigned];
    pose proof (uchar_range b0); pose proof (uchar_range b1); lia.
Qed.

(** ** The stream *)

Lemma sgetn_app (got rest : list byte) :
  sgetn (got ++ rest) (Z.of_nat (length got)) = (got, rest).
Proof.
  induction got as [| b got IH].
  - destruct rest; reflexivity.
  - cbn [app length sgetn].
    destruct (Z.leb_spec (Z.of_nat (S (length got))) 0); [lia | ].
    replace (Z.of_nat (S (length got)) - 1) with (Z.of_nat (length got)) by lia.
    now rewrite IH.
Qed.

Lemma sgetn_short (l : list byte) (n : Z) :
  Z.of_nat (length l) <= n -> sgetn l n = (l, []).
Proof.
  revert n. induction l as [| b l IH]; intros n Hn.
  - cbn. destruct (n <=? 0); reflexivity.
  - cbn [length sgetn] in *.
    destruct (Z.leb_spec n 0); [lia | ].
    rewrite IH by lia. reflexivity.
Qed.

Lemma sgetn_bound (l : list byte) (n : Z) :
  Z.of_nat (length (fst (sgetn l n))) <= Z.max 0 n /\
  fst (sgetn l n) ++ snd (sgetn l n) = l.
Proof.
  revert n. induction l as [| b l IH]; intros n.
  - cbn. destruct (n <=? 0); cbn; split; (lia || reflexivity).
  - cbn [sgetn]. destruct (Z.leb_spec n 0).
    + cbn. split; [lia | reflexivity].
    + specialize (IH (n - 1)). destruct (sgetn l (n - 1)) as [got rest].
      cbn [fst snd length app] in *. destruct IH as [IH1 IH2].
      split; [lia | now rewrite IH2].
Qed.

Lemma istream_read_drained (f : ifstream) (n : Z) :
  f.(good) = false -> istream_read f n = ([], f).
Proof. unfold istream_read. now intros ->. Qed.

Lemma istream_read_exact (got rest : list byte) :
  istream_read {| unread := got ++ rest; good := true |} (Z.of_nat (length got))
  = (got, {| unread := rest; good := true |}).
Proof.
  unfold istream_read. cbn [good unread].
  rewrite sgetn_app, Z.eqb_refl. reflexivity.
Qed.

(** A read that leaves the stream good extracted what was asked for. *)
Lemma istream_read_good (f f' : ifstream) (n : Z) (got : list byte) :
  istream_read f n = (got, f') ->
  f'.(good) = true ->
  f.(good) = true /\
  Z.of_nat (length got) = n /\
  f.(unread) = got ++ f'.(unread).
Proof.
  unfold istream_read. destruct f as [l g]. cbn [good unread].
  destruct g.
  - pose proof (sgetn_bound l n) as [_ Happ].
    destruct (sgetn l n) as [got' rest]. cbn [fst snd] in Happ.
    intros [= <- <-]. cbn [good unread].
    intros E%Z.eqb_eq. auto.
  - intros [= <- <-]. cbn. discriminate.
Qed.

Lemma istream_read_length (f : ifstream) (n : Z) :
  Z.of_nat (length (fst (istream_read f n))) <= Z.max 0 n.
Proof.
  unfold istream_read. destruct (good f).
  - pose proof (sgetn_bound (unread f) n) as [H _].
    destruct (sgetn (unread f) n). exact H.
  - cbn. lia.
Qed.

(** ** The monad *)

Lemma bind_assoc {A B C : Type} (m : M A) (k : A -> M B) (k' : B -> M C)
    (s : state) :
  bind (bind m k) k' s = bind m (fun a => bind (k a) k') s.
Proof. unfold bind. destruct (m s); reflexivity. Qed.

Lemma bind_Normal {A B : Type} (m : M A) (k : A -> M B) (s s' : state) (a : A) :
  m s = Normal a s' -> bind m k s = k a s'.
Proof. unfold bind. now intros ->. Qed.

Lemma bind_Raised {A B : Type} (m : M A) (k : A -> M B) (s s' : state) (e : exn) :
  m s = Raised e s' -> bind m k s = Raised e s'.
Proof. unfold bind. now intros ->. Qed.

Lemma preserves_bind {A B : Type} (P : state -> Prop) (m : M A) (k : A -> M B) :
  preserves P m -> (forall a, preserves P (k a)) -> preserves P (bind m k).
Proof.
  intros Hm Hk s Hs. specialize (Hm s Hs). unfold bind.
  destruct (m s) as [a s' | e s']; cbn [final_state] in *.
  - now apply Hk.
  - exact Hm.
Qed.

Lemma total_bind {A B : Type} (m : M A) (k : A -> M B) :
  total m -> (forall a, total (k a)) -> total (bind m k).
Proof.
  intros Hm Hk s. destruct (Hm s) as (a & s' & E).
  rewrite (bind_Normal _ _ _ _ _ E). apply Hk.
Qed.

Lemma consumes_bind {A B : Type} (m : M A) (k : A -> M B) (n1 n2 : Z) :
  consumes m n1 -> (forall a, consumes (k a) n2) -> consumes (bind m k) (n1 + n2).
Proof.
  intros Hm Hk s b s'' E Hgood. unfold bind in E.
  destruct (m s) as [a s' | e s'] eqn:Em; [ | discriminate].
  destruct (Hk a s' b s'' E Hgood) as [Hg' Hl'].
  destruct (Hm s a s' Em Hg') as [Hg Hl].
  split; [exact Hg | lia].
Qed.

(** ** The statements, one by one *)

Section Statements.

Variable host : byte_order.

Lemma total_file_read (n : Z) : total (file_read n).
Proof.
  intros s. unfold file_read. destruct (istream_read (file s) n). eauto.
Qed.

Lemma total_decode (len : Z) : total (decode host len).
Proof. intros s. unfold decode. eauto. Qed.

Lemma total_assign (set : Z -> WaveFile -> WaveFile) (v : Z) : total (assign set v).
Proof. intros s. unfold assign. eauto. Qed.

Lemma total_read_field (len : Z) (set : Z -> WaveFile -> WaveFile) :
  total (read_field host len set).
Proof.
  unfold read_field.
  apply total_bind; [apply total_file_read | intros _].
  apply total_bind; [apply total_decode | intros v; apply total_assign].
Qed.

Lemma total_when_printf (c : bool) (msg : string) : total (when c (printf msg)).
Proof. intros s. destruct c; cbn; unfold printf, ret; eauto. Qed.

Lemma total_read_magic : total (read_magic host).
Proof.
  unfold read_magic.
  apply total_bind; [apply total_file_read | intros _].
  apply total_bind; [intros s; unfold get_buffer; eauto | intros buf].
  apply total_bind; [apply total_when_printf | intros _].
  apply total_bind; [apply total_decode | intros v; apply total_assign].
Qed.

Lemma total_read_fixed_fields : total (read_fixed_fields host).
Proof.
  unfold read_fixed_fields.
  repeat (apply total_bind;
          [first [apply total_read_magic | apply total_read_field] | intros _]).
  apply total_read_field.
Qed.

(** Statements that do not touch the stream extract nothing. *)
Lemma consumes_nothing {A : Type} (m : M A) :
  (forall s a s', m s = Normal a s' -> s'.(file) = s.(file)) -> consumes m 0.
Proof.
  intros H s a s' E Hgood. rewrite (H s a s' E) in *. split; [assumption | lia].
Qed.

Lemma consumes_file_read (n : Z) : consumes (file_read n) n.
Proof.
  intros s a s' E Hgood. unfold file_read in E.
  destruct (istream_read (file s) n) as [got f] eqn:Er.
  injection E as <- <-. cbn [with_io file] in Hgood |- *.
  destruct (istream_read_good _ _ _ _ Er Hgood) as (Hg & Hlen & Happ).
  split; [exact Hg | ].
  rewrite Happ, length_app. lia.
Qed.

Lemma consumes_decode (len : Z) : consumes (decode host len) 0.
Proof. apply consumes_nothing. unfold decode. intros s a s' E. now inversion E. Qed.

Lemma consumes_assign (set : Z -> WaveFile -> WaveFile) (v : Z) :
  consumes (assign set v) 0.
Proof. apply consumes_nothing. unfold assign. intros s a s' E. now inversion E. Qed.

Lemma consumes_read_field (len : Z) (set : Z -> WaveFile -> WaveFile) :
  consumes (read_field host len set) len.
Proof.
  unfold read_field. replace len with (len + (0 + 0)) at 2 by lia.
  apply consumes_bind; [apply consumes_file_read | intros _].
  apply consumes_bind; [apply consumes_decode | intros v; apply consumes_assign].
Qed.

Lemma consumes_read_magic : consumes (read_magic host) 4.
Proof.
  unfold read_magic. change 4 with (4 + (0 + (0 + (0 + 0)))).
  apply consumes_bind; [apply consumes_file_read | intros _].
  apply consumes_bind;
    [apply consumes_nothing; unfold get_buffer; intros s a s' E; now inversion E
    | intros buf].
  apply consumes_bind.
  { apply consumes_nothing. intros s a s'.
    destruct (negb _); cbn; unfold printf, ret; intros E; now inversion E. }
  intros _.
  apply consumes_bind; [apply consumes_decode | intros v; apply consumes_assign].
Qed.

Lemma consumes_read_fixed_fields : consumes (read_fixed_fields host) 32.
Proof.
  unfold read_fixed_fields.
  change 32 with (4 + (4 + (4 + (4 + (2 + (2 + (4 + (4 + (2 + 2))))))))).
  repeat (apply consumes_bind;
          [first [apply consumes_read_magic | apply consumes_read_field]
          | intros _]).
  apply consumes_read_field.
Qed.

(** Preservation of assertions. *)

Section Preservation.

Variable P : state -> Prop.
Hypothesis P_io : ignores_io P.

Lemma preserves_file_read (n : Z) : preserves P (file_read n).
Proof.
  intros s Hs. unfold file_read.
  destruct (istream_read (file s) n) as [got f]. cbn. now apply P_io.
Qed.

Lemma preserves_decode (len : Z) : preserves P (decode host len).
Proof. intros s Hs. exact Hs. Qed.

Lemma preserves_assign (set : Z -> WaveFile -> WaveFile) (v : Z) :
  ignores_member P set -> preserves P (assign set v).
Proof. intros Hset s Hs. cbn. now apply Hset. Qed.

Lemma preserves_read_field (len : Z) (set : Z -> WaveFile -> WaveFile) :
  ignores_member P set -> preserves P (read_field host len set).
Proof.
  intros Hset. unfold read_field.
  apply preserves_bind; [apply preserves_file_read | intros _].
  apply preserves_bind; [apply preserves_decode | intros v].
  now apply preserves_assign.
Qed.

Lemma preserves_read_magic :
  ignores_output P -> ignores_member P set_chunk_id ->
  preserves P (read_magic host).
Proof.
  intros Hout Hset. unfold read_magic.
  apply preserves_bind; [apply preserves_file_read | intros _].
  apply preserves_bind; [intros s Hs; exact Hs | intros buf].
  apply preserves_bind.
  { intros s Hs. destruct (negb _); cbn; [now apply Hout | exact Hs]. }
  intros _.
  apply preserves_bind; [apply preserves_decode | intros v].
  now apply preserves_assign.
Qed.

Lemma preserves_new_char_array (n : Z) : preserves P (new_char_array n).
Proof.
  intros s Hs. unfold new_char_array. destruct (n <? 0); exact Hs.
Qed.

Lemma preserves_file_read_into (p : char_array) (n : Z) :
  preserves P (file_read_into p n).
Proof.
  intros s Hs. unfold file_read_into.
  destruct (istream_read (file s) n) as [got f]. cbn.
  apply (P_io s f (buffer s) Hs).
Qed.

Lemma preserves_skip_extra_chunk :
  ignores_member P set_subchunk_2_id -> preserves P (skip_extra_chunk host).
Proof.
  intros Hset. unfold skip_extra_chunk.
  apply preserves_bind; [intros s Hs; exact Hs | intros buf].
  destruct (negb _).
  - apply preserves_bind; [apply preserves_file_read | intros _].
    apply preserves_bind; [apply preserves_decode | intros n].
    apply preserves_bind; [apply preserves_new_char_array | intros p].
    apply preserves_bind; [apply preserves_file_read_into | intros _].
    now apply preserves_read_field.
  - apply preserves_bind; [apply preserves_decode | intros v].
    now apply preserves_assign.
Qed.

Lemma preserves_locate_data_chunk :
  ignores_member P set_subchunk_2_id -> preserves P (locate_data_chunk host).
Proof.
  intros Hset. unfold locate_data_chunk.
  apply preserves_bind; [apply preserves_file_read | intros _].
  now apply preserves_skip_extra_chunk.
Qed.

Lemma preserves_read_data_chunk :
  ignores_member P set_subchunk_2_size -> ignores_data P ->
  preserves P (read_data_chunk host).
Proof.
  intros Hset Hdata. unfold read_data_chunk.
  apply preserves_bind; [now apply preserves_read_field | intros _].
  apply preserves_bind; [intros s Hs; exact Hs | intros n].
  apply preserves_bind; [apply preserves_new_char_array | intros p].
  apply preserves_bind; [apply preserves_file_read_into | intros p'].
  intros s Hs. cbn. now apply Hdata.
Qed.

Lemma preserves_get_wave_file : preserves P get_wave_file.
Proof. intros s Hs. exact Hs. Qed.

End Preservation.

End Statements.

(** ** Tags *)

Lemma uchar_inj (a b : byte) : uchar a = uchar b -> a = b.
Proof.
  unfold uchar. intros H%N2Z.inj.
  assert (E : Some a = Some b)
    by now rewrite <- (Byte.of_to_N a), <- (Byte.of_to_N b), H.
  now injection E.
Qed.

(** [strncmp] against a literal of four characters other than NUL returns
    0 exactly on the arrays that start with these four characters. *)
Lemma strncmp_4 (b : list byte) (c0 c1 c2 c3 : byte) (lit : list byte) :
  uchar c0 <> 0 -> uchar c1 <> 0 -> uchar c2 <> 0 -> uchar c3 <> 0 ->
  strncmp b (c0 :: c1 :: c2 :: c3 :: lit) 4 = 0 <->
  firstn 4 b = [c0; c1; c2; c3].
Proof.
  intros N0 N1 N2 N3.
  destruct b as [| t0 [| t1 [| t2 [| t3 r]]]];
    cbn [strncmp hd tl firstn];
    repeat match goal with
      | |- context [uchar ?x =? uchar ?y] =>
          destruct (Z.eqb_spec (uchar x) (uchar y)) as [?E%uchar_inj | ?E]
      | |- context [uchar ?x =? 0] =>
          destruct (Z.eqb_spec (uchar x) 0)
      end;
    subst; split; intros H; try discriminate H; try reflexivity;
    try (exfalso; lia);
    try (injection H; intros; subst; congruence);
    try (change (uchar x00) with 0 in *; lia).
Qed.

Lemma strncmp_RIFF (b : list byte) :
  strncmp b RIFF 4 = 0 <-> firstn 4 b = bytes_of "RIFF".
Proof. apply strncmp_4; discriminate. Qed.

Lemma strncmp_data_tag (b : list byte) :
  strncmp b data_tag 4 = 0 <-> firstn 4 b = bytes_of "data".
Proof. apply strncmp_4; discriminate. Qed.

(** One statement of a sequence, run on an explicit state. *)
Ltac run_with lem :=
  erewrite bind_Normal by (apply lem); cbv beta.

(** A list of known length, as its elements. *)
Ltac explicit_list l H :=
  repeat (destruct l as [| ? l]; [discriminate H | ]);
  destruct l; [clear H | discriminate H].

(** ** The statements on a stream that holds what they ask for *)

Section Exact.

Variable host : byte_order.

Lemma convert_to_int_le_signed_4 (b0 b1 b2 b3 : byte) (rest : list byte) :
  convert_to_int host (b0 :: b1 :: b2 :: b3 :: rest) 4
  = le_signed [b0; b1; b2; b3].
Proof. now rewrite convert_to_int_4, le_signed_4. Qed.

Lemma convert_to_int_le_signed_2 (b0 b1 : byte) (rest : list byte) :
  to_short (convert_to_int host (b0 :: b1 :: rest) 2) = le_signed [b0; b1].
Proof. now rewrite convert_to_int_2, le_signed_2. Qed.

Lemma file_read_4 (a b c d x0 x1 x2 x3 : byte) rest out w :
  file_read 4
    {| file := {| unread := a :: b :: c :: d :: rest; good := true |};
       buffer := [x0; x1; x2; x3]; console := out; wave_file := w |}
  = Normal tt
    {| file := {| unread := rest; good := true |};
       buffer := [a; b; c; d]; console := out; wave_file := w |}.
Proof. destruct rest; reflexivity. Qed.

Lemma read_magic_exact (t0 t1 t2 t3 g0 g1 g2 g3 : byte) rest out w :
  read_magic host
    {| file := {| unread := t0 :: t1 :: t2 :: t3 :: rest; good := true |};
       buffer := [g0; g1; g2; g3]; console := out; wave_file := w |}
  = Normal tt
    {| file := {| unread := rest; good := true |};
       buffer := [t0; t1; t2; t3];
       console := out ++ diagnostics [t0; t1; t2; t3];
       wave_file := set_chunk_id (convert_to_int host [t0; t1; t2; t3] 4) w |}.
Proof.
  unfold read_magic, diagnostics.
  rewrite (bind_Normal _ _ _ _ _ (file_read_4 _ _ _ _ _ _ _ _ _ _ _)).
  unfold get_buffer at 1. unfold bind at 1. cbn [buffer].
  destruct (strncmp [t0; t1; t2; t3] RIFF 4 =? 0);
    cbn [negb when]; rewrite ?app_nil_r; reflexivity.
Qed.

Lemma read_field_4 (set : Z -> WaveFile -> WaveFile)
    (a b c d x0 x1 x2 x3 : byte) rest out w :
  read_field host 4 set
    {| file := {| unread := a :: b :: c :: d :: rest; good := true |};
       buffer := [x0; x1; x2; x3]; console := out; wave_file := w |}
  = Normal tt
    {| file := {| unread := rest; good := true |};
       buffer := [a; b; c; d]; console := out;
       wave_file := set (convert_to_int host [a; b; c; d] 4) w |}.
Proof. destruct rest; reflexivity. Qed.

Lemma read_field_2 (set : Z -> WaveFile -> WaveFile)
    (a b x0 x1 x2 x3 : byte) rest out w :
  read_field host 2 set
    {| file := {| unread := a :: b :: rest; good := true |};
       buffer := [x0; x1; x2; x3]; console := out; wave_file := w |}
  = Normal tt
    {| file := {| unread := rest; good := true |};
       buffer := [a; b; x2; x3]; console := out;
       wave_file := set (convert_to_int host [a; b; x2; x3] 2) w |}.
Proof. destruct rest; reflexivity. Qed.

(** Lines 127-151 on a stream that holds the thirty-two bytes. *)
Lemma read_fixed_fields_exact (fields rest g : list byte) out w :
  length fields = 32%nat -> length g = 4%nat ->
  exists g',
    length g' = 4%nat /\
    read_fixed_fields host
      {| file := {| unread := fields ++ rest; good := true |};
         buffer := g; console := out; wave_file := w |}
    = Normal tt
      {| file := {| unread := rest; good := true |};
         buffer := g'; console := out ++ diagnostics (slice 0 4 fields);
         wave_file := fixed_fields_of fields w |}.
Proof.
  intros Hf Hg.
  explicit_list fields Hf. explicit_list g Hg.
  cbn [app]. unfold read_fixed_fields.
  run_with read_magic_exact.
  do 3 run_with read_field_4. do 2 run_with read_field_2.
  do 2 run_with read_field_4. run_with read_field_2.
  rewrite read_field_2.
  eexists; split; [ | f_equal; f_equal]; [reflexivity | ].
  unfold fixed_fields_of, slice. cbn [skipn firstn].
  cbv [set_bits_per_sample set_block_align set_byte_rate set_sample_rate
       set_num_channels set_audio_format set_subchunk_1_id set_format
       set_chunk_size set_chunk_id
       chunk_id chunk_size format subchunk_1_id subchunk_1_size audio_format
       num_channels sample_rate byte_rate block_align bits_per_sample
       subchunk_2_id subchunk_2_size data].
  rewrite !convert_to_int_le_signed_4, !convert_to_int_le_signed_2.
  reflexivity.
Qed.

End Exact.

Section Chunks.

Variable host : byte_order.

Lemma store_prefix_nil (got : list byte) : store_prefix got [] = got.
Proof. unfold store_prefix. now rewrite skipn_nil, app_nil_r. Qed.

Lemma get_buffer_run (s : state) : get_buffer s = Normal (buffer s) s.
Proof. reflexivity. Qed.

Lemma decode_run (len : Z) (s : state) :
  decode host len s = Normal (convert_to_int host (buffer s) len) s.
Proof. reflexivity. Qed.

Lemma assign_run (set : Z -> WaveFile -> WaveFile) (v : Z) (s : state) :
  assign set v s = Normal tt (with_wave_file (set v (wave_file s)) s).
Proof. reflexivity. Qed.

Lemma new_char_array_run (n : Z) (s : state) :
  0 <= n -> new_char_array n s = Normal {| capacity := n; initialized := [] |} s.
Proof.
  intros Hn. unfold new_char_array.
  destruct (Z.ltb_spec n 0); [lia | reflexivity].
Qed.

Lemma file_read_into_exact (p : char_array) (got rest g : list byte) out w :
  file_read_into p (Z.of_nat (length got))
    {| file := {| unread := got ++ rest; good := true |};
       buffer := g; console := out; wave_file := w |}
  = Normal {| capacity := capacity p;
              initialized := store_prefix got (initialized p) |}
      {| file := {| unread := rest; good := true |};
         buffer := g; console := out; wave_file := w |}.
Proof.
  unfold file_read_into. cbn [file]. now rewrite istream_read_exact.
Qed.

(** Lines 152-166 when the lookahead is "data". *)
Lemma locate_data_chunk_lookahead (rest g : list byte) out w :
  length g = 4%nat ->
  locate_data_chunk host
    {| file := {| unread := bytes_of "data" ++ rest; good := true |};
       buffer := g; console := out; wave_file := w |}
  = Normal tt
    {| file := {| unread := rest; good := true |};
       buffer := bytes_of "data"; console := out;
       wave_file := set_subchunk_2_id (le_signed (bytes_of "data")) w |}.
Proof.
  intros Hg. explicit_list g Hg.
  unfold locate_data_chunk. cbn [bytes_of list_byte_of_string app].
  change (bytes_of "data") with [x64; x61; x74; x61]. cbn [app].
  run_with file_read_4.
  unfold skip_extra_chunk. run_with get_buffer_run. cbn [buffer].
  change (negb (strncmp [x64; x61; x74; x61] data_tag 4 =? 0)) with false.
  cbv iota.
  run_with decode_run. cbn [buffer].
  rewrite assign_run, convert_to_int_le_signed_4. reflexivity.
Qed.

(** Lines 152-166 when the lookahead is another tag and the stream holds
    the extra chunk and the four characters after it. *)
Lemma locate_data_chunk_extra (tag len body id rest g : list byte) out w :
  length tag = 4%nat -> tag <> bytes_of "data" ->
  length len = 4%nat -> le_signed len = Z.of_nat (length body) ->
  length id = 4%nat -> length g = 4%nat ->
  locate_data_chunk host
    {| file := {| unread := tag ++ len ++ body ++ id ++ rest; good := true |};
       buffer := g; console := out; wave_file := w |}
  = Normal tt
    {| file := {| unread := rest; good := true |};
       buffer := id; console := out;
       wave_file := set_subchunk_2_id (le_signed id) w |}.
Proof.
  intros Ht Hne Hl Hbody Hi Hg.
  explicit_list tag Ht. explicit_list len Hl. explicit_list id Hi.
  explicit_list g Hg.
  unfold locate_data_chunk. cbn [app].
  run_with file_read_4.
  unfold skip_extra_chunk. run_with get_buffer_run. cbn [buffer].
  match goal with
  | |- context [strncmp ?t data_tag 4 =? 0] =>
      destruct (Z.eqb_spec (strncmp t data_tag 4) 0) as [E | _]
  end.
  { apply strncmp_data_tag in E. contradiction. }
  cbn [negb].
  run_with file_read_4.
  run_with decode_run. cbn [buffer].
  rewrite convert_to_int_le_signed_4, Hbody.
  erewrite bind_Normal by (apply new_char_array_run; lia). cbv beta.
  run_with file_read_into_exact.
  rewrite read_field_4, convert_to_int_le_signed_4. reflexivity.
Qed.

(** Lines 168-171 on a stream that holds the four bytes of the size. *)
Lemma read_data_chunk_exact (size rest g : list byte) out w :
  length size = 4%nat -> length g = 4%nat ->
  let n := le_signed size in
  let w1 := set_subchunk_2_size n w in
  let rd := istream_read {| unread := rest; good := true |} n in
  read_data_chunk host
    {| file := {| unread := size ++ rest; good := true |};
       buffer := g; console := out; wave_file := w |}
  = if n <? 0
    then Raised bad_alloc
           {| file := {| unread := rest; good := true |};
              buffer := size; console := out; wave_file := w1 |}
    else Normal tt
           {| file := snd rd; buffer := size; console := out;
              wave_file :=
                set_data {| capacity := n; initialized := fst rd |} w1 |}.
Proof.
  intros Hs Hg n w1 rd. explicit_list size Hs. explicit_list g Hg.
  unfold read_data_chunk. cbn [app].
  run_with read_field_4.
  rewrite convert_to_int_le_signed_4. fold n. fold w1.
  unfold get_subchunk_2_size at 1. unfold bind at 1.
  cbn [wave_file].
  replace (subchunk_2_size w1) with n by (destruct w; reflexivity).
  unfold new_char_array at 1. unfold bind at 1.
  destruct (n <? 0); [reflexivity | ].
  unfold file_read_into, bind. cbn [file capacity initialized].
  fold rd. destruct rd as [got f].
  rewrite store_prefix_nil. reflexivity.
Qed.

End Chunks.

Section Whole.

Variable host : byte_order.

Lemma slice_app (off len : nat) (l l' : list byte) :
  (off + len <= length l)%nat -> slice off len (l ++ l') = slice off len l.
Proof.
  intros H. unfold slice.
  rewrite skipn_app, firstn_app, length_skipn.
  replace (len - (length l - off))%nat with 0%nat by lia.
  cbn [firstn]. now rewrite app_nil_r.
Qed.

Lemma slice_all (l : list byte) : slice 0 (length l) l = l.
Proof. unfold slice. cbn [skipn]. apply firstn_all. Qed.

Lemma slice_fields_32 (fields tail : list byte) :
  length fields = 32%nat -> slice 0 32 (fields ++ tail) = fields.
Proof.
  intros Hf. rewrite slice_app by lia. rewrite <- Hf. apply slice_all.
Qed.

Lemma slice_fields_4 (fields tail : list byte) :
  length fields = 32%nat -> slice 0 4 (fields ++ tail) = slice 0 4 fields.
Proof. intros Hf. apply slice_app. lia. Qed.

(** The loader on a stream in which it finds a data chunk: the outcome in
    closed form. *)
Lemma LoadeWaveFile_located stack (prefix id size rest : list byte) :
  located prefix id -> length size = 4%nat ->
  let n := le_signed size in
  let w1 := set_subchunk_2_size n
              (set_subchunk_2_id (le_signed id)
                 (fixed_fields_of (slice 0 32 prefix) new_WaveFile)) in
  let rd := istream_read {| unread := rest; good := true |} n in
  let w2 := set_data {| capacity := n; initialized := fst rd |} w1 in
  LoadeWaveFile host stack (Some (prefix ++ size ++ rest))
  = if n <? 0
    then Raised bad_alloc
           {| file := {| unread := rest; good := true |}; buffer := size;
              console := diagnostics (slice 0 4 prefix); wave_file := w1 |}
    else Normal w2
           {| file := snd rd; buffer := size;
              console := diagnostics (slice 0 4 prefix); wave_file := w2 |}.
Proof.
  intros Hloc Hsize n w1 rd w2.
  destruct stack as [[[g0 g1] g2] g3].
  unfold LoadeWaveFile, LoadeWaveFile_body, entry_state, ifstream_open.
  destruct Hloc as [fields Hf | fields tag len body id Hf Ht Hne Hl Hbody Hi];
    subst w2 w1;
    rewrite (slice_fields_32 fields _ Hf), (slice_fields_4 fields _ Hf);
    rewrite <- !app_assoc.
  - destruct (read_fixed_fields_exact host fields
                (bytes_of "data" ++ size ++ rest) [g0; g1; g2; g3] []
                new_WaveFile Hf eq_refl) as (g' & Hg' & Efix).
    rewrite (bind_Normal _ _ _ _ _ Efix).
    rewrite (bind_Normal _ _ _ _ _
               (locate_data_chunk_lookahead host _ _ _ _ Hg')).
    unfold bind at 1. rewrite (read_data_chunk_exact host) by (assumption || reflexivity).
    cbn [app]. fold n. fold rd. destruct (n <? 0); reflexivity.
  - destruct (read_fixed_fields_exact host fields
                (tag ++ len ++ body ++ id ++ size ++ rest) [g0; g1; g2; g3] []
                new_WaveFile Hf eq_refl) as (g' & Hg' & Efix).
    rewrite (bind_Normal _ _ _ _ _ Efix).
    rewrite (bind_Normal _ _ _ _ _
               (locate_data_chunk_extra host _ _ _ _ _ _ _ _
                  Ht Hne Hl Hbody Hi Hg')).
    unfold bind at 1. rewrite (read_data_chunk_exact host) by (assumption || reflexivity).
    cbn [app]. fold n. fold rd. destruct (n <? 0); reflexivity.
Qed.

End Whole.

(** ** The loader on an exhausted stream *)

Section Drained.

Variable host : byte_order.

Lemma file_read_drained (n : Z) (s : state) :
  drained s -> file_read n s = Normal tt s.
Proof.
  unfold drained, file_read. intros Hd.
  rewrite istream_read_drained by exact Hd.
  destruct s. reflexivity.
Qed.

Lemma file_read_into_drained (p : char_array) (n : Z) (s : state) :
  drained s ->
  file_read_into p n s
  = Normal {| capacity := capacity p; initialized := initialized p |} s.
Proof.
  unfold drained, file_read_into. intros Hd.
  rewrite istream_read_drained by exact Hd.
  destruct s. reflexivity.
Qed.

Lemma read_field_drained (len : Z) (set : Z -> WaveFile -> WaveFile) (s : state) :
  drained s ->
  read_field host len set s
  = Normal tt (with_wave_file (set (convert_to_int host (buffer s) len) (wave_file s)) s).
Proof.
  intros Hd. unfold read_field.
  erewrite bind_Normal by (apply file_read_drained; exact Hd).
  reflexivity.
Qed.

(** A buffer holding "data" decodes to a positive number. *)
Lemma data_tag_positive (b : list byte) :
  strncmp b data_tag 4 = 0 -> convert_to_int host b 4 = 1635017060.
Proof.
  intros E%strncmp_data_tag.
  destruct b as [| b0 [| b1 [| b2 [| b3 r]]]]; try discriminate E.
  injection E as -> -> -> ->.
  now rewrite convert_to_int_4.
Qed.

(** Lines 153-173 once the stream is exhausted: every member still to be
    assigned is decoded from what the buffer holds. *)
Lemma drained_tail (s : state) :
  drained s ->
  let v := convert_to_int host (buffer s) 4 in
  let w := set_data {| capacity := v; initialized := [] |}
             (set_subchunk_2_size v (set_subchunk_2_id v (wave_file s))) in
  (skip_extra_chunk host ;; read_data_chunk host ;; get_wave_file) s
  = if v <? 0 then Raised bad_alloc s
    else Normal w (with_wave_file w s).
Proof.
  intros Hd v w.
  assert (Hd1 : forall w', drained (with_wave_file w' s)) by (intros; exact Hd).
  assert (Etail : (v <? 0) = false ->
            (read_data_chunk host ;; get_wave_file)
              (with_wave_file (set_subchunk_2_id v (wave_file s)) s)
            = Normal w (with_wave_file w s)).
  { intros Hv. unfold read_data_chunk.
    rewrite bind_assoc.
    erewrite bind_Normal by (apply read_field_drained; apply Hd1).
    cbn [with_wave_file buffer wave_file]. fold v.
    rewrite bind_assoc. unfold get_subchunk_2_size at 1. unfold bind at 1.
    rewrite bind_assoc. unfold new_char_array at 1. unfold bind at 1.
    cbn [wave_file with_wave_file subchunk_2_size set_subchunk_2_size].
    rewrite Hv. rewrite bind_assoc.
    erewrite bind_Normal by (apply file_read_into_drained; exact Hd).
    reflexivity. }
  unfold skip_extra_chunk.
  rewrite bind_assoc. unfold get_buffer at 1. unfold bind at 1.
  destruct (Z.eqb_spec (strncmp (buffer s) data_tag 4) 0) as [E | _];
    cbn [negb].
  - pose proof (data_tag_positive _ E) as Hv. fold v in Hv.
    replace (v <? 0) with false in * by (rewrite Hv; reflexivity).
    rewrite bind_assoc. unfold decode at 1. unfold bind at 1. fold v.
    unfold assign at 1. unfold bind at 1.
    now apply Etail.
  - rewrite bind_assoc.
    erewrite bind_Normal by (apply file_read_drained; exact Hd).
    rewrite bind_assoc. unfold decode at 1. unfold bind at 1. fold v.
    rewrite bind_assoc. unfold new_char_array at 1. unfold bind at 1.
    destruct (v <? 0) eqn:Hv; [reflexivity | ].
    rewrite bind_assoc.
    erewrite bind_Normal by (apply file_read_into_drained; exact Hd).
    erewrite bind_Normal by (apply read_field_drained; exact Hd).
    fold v. now apply Etail.
Qed.

End Drained.

(** ** The outcomes of the loader *)

Section Outcome.

Variable host : byte_order.

Lemma LoadeWaveFile_body_split (s : state) :
  LoadeWaveFile_body host s
  = bind (read_fixed_fields host ;; file_read 4)
      (fun _ => skip_extra_chunk host ;; read_data_chunk host ;; get_wave_file) s.
Proof.
  unfold LoadeWaveFile_body, locate_data_chunk.
  rewrite (bind_assoc (read_fixed_fields host) (fun _ => file_read 4)).
  destruct (read_fixed_fields host s) as [[] s1 | e s1] eqn:E.
  - rewrite !(bind_Normal _ _ _ _ _ E). now rewrite bind_assoc.
  - now rewrite !(bind_Raised _ _ _ _ _ E).
Qed.

(** A stream shorter than the fixed fields and the lookahead is exhausted
    by the time the lookahead has been asked for. *)
Lemma short_stream_drains stack (stream : list byte) :
  (length stream < 36)%nat ->
  exists s1,
    (read_fixed_fields host ;; file_read 4) (entry_state stack (Some stream))
    = Normal tt s1 /\ drained s1.
Proof.
  intros Hlen.
  destruct (total_bind (read_fixed_fields host) (fun _ => file_read 4)
              (total_read_fixed_fields host) (fun _ => total_file_read 4)
              (entry_state stack (Some stream))) as ([] & s1 & E).
  exists s1. split; [exact E | ].
  unfold drained. destruct (good (file s1)) eqn:Hgood; [exfalso | reflexivity].
  destruct (consumes_bind (read_fixed_fields host) (fun _ => file_read 4) 32 4
              (consumes_read_fixed_fields host) (fun _ => consumes_file_read 4)
              _ _ _ E Hgood) as [_ Hcount].
  destruct stack as [[[g0 g1] g2] g3]. cbn in Hcount. lia.
Qed.

(** The extra chunk can only fail in its allocation, on a negative length. *)
Lemma skip_extra_chunk_raises (s s' : state) (e : exn) :
  skip_extra_chunk host s = Raised e s' ->
  e = bad_alloc /\ convert_to_int host (buffer s') 4 < 0.
Proof.
  unfold skip_extra_chunk. unfold get_buffer at 1. unfold bind at 1.
  destruct (negb _); [ | discriminate].
  destruct (total_file_read 4 s) as ([] & s1 & E1).
  rewrite (bind_Normal _ _ _ _ _ E1).
  unfold decode at 1. unfold bind at 1.
  unfold new_char_array at 1. unfold bind at 1.
  destruct (Z.ltb_spec (convert_to_int host (buffer s1) 4) 0) as [Hneg | _].
  - intros [= <- <-]. split; [reflexivity | exact Hneg].
  - unfold file_read_into at 1. unfold bind at 1.
    destruct (istream_read _ _) as [got f].
    match goal with
    | |- read_field host 4 ?set ?s2 = _ -> _ =>
        destruct (total_read_field host 4 set s2) as ([] & s3 & E3)
    end.
    rewrite E3. discriminate.
Qed.

(** Lines 168-171 on any state: either the allocation fails on a negative
    size, or the payload array has the decoded size and holds, in a
    prefix, what the stream still delivered. *)
Lemma read_data_chunk_outcome (s : state) :
  match read_data_chunk host s with
  | Normal _ s' =>
      exists p,
        data (wave_file s') = Some p /\
        capacity p = subchunk_2_size (wave_file s') /\
        capacity p = convert_to_int host (buffer s') 4 /\
        0 <= capacity p /\
        Z.of_nat (length (initialized p)) <= capacity p /\
        (good (file s') = true ->
         Z.of_nat (length (initialized p)) = capacity p)
  | Raised e s' =>
      e = bad_alloc /\ convert_to_int host (buffer s') 4 < 0
  end.
Proof.
  unfold read_data_chunk, read_field.
  destruct (total_file_read 4 s) as ([] & s1 & E1).
  rewrite !bind_assoc. rewrite (bind_Normal _ _ _ _ _ E1). cbv beta.
  rewrite bind_assoc. unfold decode at 1. unfold bind at 1.
  unfold assign at 1. unfold bind at 1.
  unfold get_subchunk_2_size at 1. unfold bind at 1.
  cbn [wave_file with_wave_file subchunk_2_size set_subchunk_2_size].
  set (n := convert_to_int host (buffer s1) 4).
  unfold new_char_array at 1. unfold bind at 1.
  destruct (Z.ltb_spec n 0) as [Hneg | Hpos].
  - split; [reflexivity | exact Hneg].
  - unfold file_read_into at 1. unfold bind at 1.
    cbn [file with_wave_file capacity initialized].
    pose proof (istream_read_length (file s1) n) as Hlen.
    destruct (istream_read (file s1) n) as [got f] eqn:Er.
    cbn [fst] in Hlen. unfold assign_data.
    cbn [wave_file with_wave_file with_file data set_data file buffer
         subchunk_2_size set_subchunk_2_size capacity initialized].
    rewrite store_prefix_nil.
    eexists; split; [reflexivity | ].
    cbn [capacity initialized].
    repeat split; try reflexivity; try lia.
    intros Hgood.
    now destruct (istream_read_good _ _ _ _ Er Hgood) as (_ & Hn & _).
Qed.

(** The loader on any input: the two outcomes it has. *)
Lemma LoadeWaveFile_outcome stack (content : option (list byte)) :
  match LoadeWaveFile host stack content with
  | Normal w s' =>
      w = wave_file s' /\
      exists p,
        data w = Some p /\
        capacity p = subchunk_2_size w /\
        capacity p = convert_to_int host (buffer s') 4 /\
        0 <= capacity p /\
        Z.of_nat (length (initialized p)) <= capacity p /\
        (good (file s') = true ->
         Z.of_nat (length (initialized p)) = capacity p)
  | Raised e s' =>
      e = bad_alloc /\ convert_to_int host (buffer s') 4 < 0
  end.
Proof.
  unfold LoadeWaveFile, LoadeWaveFile_body.
  destruct (total_read_fixed_fields host (entry_state stack content))
    as ([] & s1 & E1).
  rewrite (bind_Normal _ _ _ _ _ E1).
  unfold bind at 1. unfold locate_data_chunk.
  destruct (total_file_read 4 s1) as ([] & s2 & E2).
  rewrite (bind_Normal _ _ _ _ _ E2).
  destruct (skip_extra_chunk host s2) as [[] s3 | e s3] eqn:E3.
  - unfold bind at 1.
    pose proof (read_data_chunk_outcome s3) as H.
    destruct (read_data_chunk host s3) as [[] s4 | e s4].
    + unfold get_wave_file. split; [reflexivity | exact H].
    + exact H.
  - now apply skip_extra_chunk_raises in E3.
Qed.

End Outcome.

(** ** Assertions kept by the rest of the body *)

(** Assertions on members that a statement does not assign. *)
Ltac solve_ignores :=
  lazymatch goal with
  | |- ignores_io _ => intros [? ? ? ?] ? ? H; exact H
  | |- ignores_output _ => intros [? ? ? ?] ? H; exact H
  | |- ignores_member _ _ => intros [? ? ? []] ? H; exact H
  | |- ignores_data _ => intros [? ? ? []] ? H; exact H
  end.

(** The statements after the magic, each with the members it assigns. *)
Lemma preserves_run {A : Type} (P : state -> Prop) (m : M A) (s : state) :
  preserves P m -> P s -> P (final_state (m s)).
Proof. intros Hm Hs. now apply Hm. Qed.

Ltac preserves_step :=
  first
    [ solve_ignores
    | apply preserves_read_magic
    | apply preserves_read_field
    | apply preserves_locate_data_chunk
    | apply preserves_read_data_chunk
    | apply preserves_get_wave_file
    | apply preserves_bind; [ | intros ? ] ].

Lemma returned_wave_file (r : result WaveFile) (host : byte_order) stack content :
  r = LoadeWaveFile host stack content ->
  match returned r with
  | Some w => w = wave_file (final_state r)
  | None => True
  end.
Proof.
  intros ->. pose proof (LoadeWaveFile_outcome host stack content) as H.
  destruct (LoadeWaveFile host stack content); cbn; [apply H | exact I].
Qed.

(** ** The loader on a stream that ends inside a field *)

Lemma read_magic_drained (host : byte_order) (f : ifstream) (b : list byte)
    out w :
  good f = false ->
  read_magic host {| file := f; buffer := b; console := out; wave_file := w |}
  = Normal tt
      {| file := f; buffer := b; console := out ++ diagnostics b;
         wave_file := set_chunk_id (convert_to_int host b 4) w |}.
Proof.
  intros Hf. unfold read_magic, diagnostics.
  erewrite bind_Normal by (apply file_read_drained; exact Hf). cbv beta.
  run_with get_buffer_run. cbn [buffer].
  destruct (strncmp b RIFF 4 =? 0); cbn [negb when];
    rewrite ?app_nil_r; reflexivity.
Qed.

Lemma read_field_drained_explicit (host : byte_order) (len : Z)
    (set : Z -> WaveFile -> WaveFile) (f : ifstream) (b : list byte) out w :
  good f = false ->
  read_field host len set
    {| file := f; buffer := b; console := out; wave_file := w |}
  = Normal tt
      {| file := f; buffer := b; console := out;
         wave_file := set (convert_to_int host b len) w |}.
Proof. intros Hf. now rewrite read_field_drained by exact Hf. Qed.

Section Cut.

Variable host : byte_order.

(** A [read] that the stream cannot serve in full: the bytes that are
    left are stored, and the stream is exhausted. *)
Lemma istream_read_short (partial : list byte) (n : Z) :
  Z.of_nat (length partial) < n ->
  istream_read {| unread := partial; good := true |} n
  = (partial, {| unread := []; good := false |}).
Proof.
  intros H. unfold istream_read. cbn [good unread].
  rewrite sgetn_short by lia.
  replace (Z.of_nat (length partial) =? n) with false; [reflexivity | ].
  symmetry. apply Z.eqb_neq. lia.
Qed.

Lemma file_read_short (n : Z) (partial b : list byte) out w :
  Z.of_nat (length partial) < n ->
  file_read n
    {| file := {| unread := partial; good := true |};
       buffer := b; console := out; wave_file := w |}
  = Normal tt (exhausted (store_prefix partial b) out w).
Proof.
  intros H. unfold file_read. cbn [file].
  now rewrite istream_read_short.
Qed.

Lemma read_field_short (len : Z) (set : Z -> WaveFile -> WaveFile)
    (partial b : list byte) out w :
  Z.of_nat (length partial) < len ->
  read_field host len set
    {| file := {| unread := partial; good := true |};
       buffer := b; console := out; wave_file := w |}
  = Normal tt
      (exhausted (store_prefix partial b) out
         (set (convert_to_int host (store_prefix partial b) len) w)).
Proof.
  intros H. unfold read_field.
  erewrite bind_Normal by (apply file_read_short; exact H).
  reflexivity.
Qed.

Lemma read_magic_short (partial b : list byte) out w :
  Z.of_nat (length partial) < 4 ->
  read_magic host
    {| file := {| unread := partial; good := true |};
       buffer := b; console := out; wave_file := w |}
  = Normal tt
      (exhausted (store_prefix partial b)
         (out ++ diagnostics (store_prefix partial b))
         (set_chunk_id (convert_to_int host (store_prefix partial b) 4) w)).
Proof.
  intros H. unfold read_magic, diagnostics.
  erewrite bind_Normal by (apply file_read_short; exact H). cbv beta.
  run_with get_buffer_run. unfold exhausted. cbn [buffer].
  destruct (strncmp _ RIFF 4 =? 0); cbn [negb when];
    rewrite ?app_nil_r; reflexivity.
Qed.

Lemma LoadeWaveFile_body_located (s : state) :
  LoadeWaveFile_body host s
  = bind (read_fixed_fields host ;; locate_data_chunk host)
      (fun _ => after_data_chunk_located host) s.
Proof.
  unfold LoadeWaveFile_body, after_data_chunk_located.
  now rewrite bind_assoc.
Qed.

(** Lines 127-166 on a stream in which the loader finds a data chunk. *)
Lemma data_chunk_located stack (prefix id rest : list byte) :
  located prefix id ->
  (read_fixed_fields host ;; locate_data_chunk host)
    (entry_state stack (Some (prefix ++ rest)))
  = Normal tt
      {| file := {| unread := rest; good := true |}; buffer := id;
         console := diagnostics (slice 0 4 prefix);
         wave_file := set_subchunk_2_id (le_signed id)
                        (fixed_fields_of (slice 0 32 prefix) new_WaveFile) |}.
Proof.
  intros Hloc. destruct stack as [[[g0 g1] g2] g3].
  unfold entry_state, ifstream_open.
  destruct Hloc as [fields Hf | fields tag len body id Hf Ht Hne Hl Hbody Hi];
    rewrite (slice_fields_32 fields _ Hf), (slice_fields_4 fields _ Hf);
    rewrite <- !app_assoc.
  - destruct (read_fixed_fields_exact host fields
                (bytes_of "data" ++ rest) [g0; g1; g2; g3] []
                new_WaveFile Hf eq_refl) as (g' & Hg' & Efix).
    rewrite (bind_Normal _ _ _ _ _ Efix).
    now rewrite (locate_data_chunk_lookahead host _ _ _ _ Hg').
  - destruct (read_fixed_fields_exact host fields
                (tag ++ len ++ body ++ id ++ rest) [g0; g1; g2; g3] []
                new_WaveFile Hf eq_refl) as (g' & Hg' & Efix).
    rewrite (bind_Normal _ _ _ _ _ Efix).
    now rewrite (locate_data_chunk_extra host _ _ _ _ _ _ _ _
                   Ht Hne Hl Hbody Hi Hg').
Qed.

(** Lines 168-173 once the stream is exhausted. *)
Lemma after_data_chunk_located_drained (s : state) :
  drained s ->
  let v := convert_to_int host (buffer s) 4 in
  let w1 := set_subchunk_2_size v (wave_file s) in
  after_data_chunk_located host s
  = if v <? 0 then Raised bad_alloc (with_wave_file w1 s)
    else let w := set_data {| capacity := v; initialized := [] |} w1 in
         Normal w (with_wave_file w s).
Proof.
  intros Hd v w1.
  assert (Hd1 : forall w', drained (with_wave_file w' s)) by (intros; exact Hd).
  unfold after_data_chunk_located, read_data_chunk.
  rewrite bind_assoc.
  erewrite bind_Normal by (apply read_field_drained; exact Hd).
  fold v. fold w1.
  rewrite bind_assoc. unfold get_subchunk_2_size at 1. unfold bind at 1.
  rewrite bind_assoc. unfold new_char_array at 1. unfold bind at 1.
  cbn [wave_file with_wave_file].
  replace (subchunk_2_size w1) with v by (subst w1; destruct (wave_file s); reflexivity).
  destruct (v <? 0); [reflexivity | ].
  rewrite bind_assoc.
  erewrite bind_Normal by (apply file_read_into_drained; apply Hd1).
  reflexivity.
Qed.

(** Lines 168-173 on a stream that ends inside the four bytes of the
    size. *)
Lemma after_data_chunk_located_short (partial b : list byte) out w :
  (length partial < 4)%nat ->
  let stale := store_prefix partial b in
  let v := convert_to_int host stale 4 in
  let w1 := set_subchunk_2_size v w in
  after_data_chunk_located host
    {| file := {| unread := partial; good := true |};
       buffer := b; console := out; wave_file := w |}
  = if v <? 0 then Raised bad_alloc (exhausted stale out w1)
    else let w2 := set_data {| capacity := v; initialized := [] |} w1 in
         Normal w2 (exhausted stale out w2).
Proof.
  intros Hlen stale v w1.
  unfold after_data_chunk_located, read_data_chunk.
  rewrite bind_assoc.
  erewrite bind_Normal by (apply read_field_short; lia).
  fold stale. fold v. fold w1.
  rewrite bind_assoc. unfold get_subchunk_2_size at 1. unfold bind at 1.
  rewrite bind_assoc. unfold new_char_array at 1. unfold bind at 1.
  cbn [wave_file exhausted].
  replace (subchunk_2_size w1) with v by (subst w1; destruct w; reflexivity).
  destruct (v <? 0); [reflexivity | ].
  rewrite bind_assoc.
  erewrite bind_Normal by (apply file_read_into_drained; reflexivity).
  reflexivity.
Qed.

Lemma store_prefix_length (partial b : list byte) :
  (length partial <= length b)%nat ->
  length (store_prefix partial b) = length b.
Proof.
  intros H. unfold store_prefix. rewrite length_app, length_skipn. lia.
Qed.

Lemma convert_to_int_le_signed (b : list byte) :
  length b = 4%nat -> convert_to_int host b 4 = le_signed b.
Proof.
  intros H. explicit_list b H. apply convert_to_int_le_signed_4.
Qed.

(** A stream that ends inside the four bytes of the size. *)
Lemma cut_in_size stack (prefix id partial : list byte) :
  located prefix id ->
  (length partial < 4)%nat ->
  let stale := store_prefix partial id in
  let v := le_signed stale in
  let w1 := set_subchunk_2_size v
              (set_subchunk_2_id (le_signed id)
                 (fixed_fields_of (slice 0 32 prefix) new_WaveFile)) in
  let out := diagnostics (slice 0 4 prefix) in
  LoadeWaveFile host stack (Some (prefix ++ partial))
  = if v <? 0 then Raised bad_alloc (exhausted stale out w1)
    else let w := set_data {| capacity := v; initialized := [] |} w1 in
         Normal w (exhausted stale out w).
Proof.
  intros Hloc Hlen stale v w1 out.
  assert (Hid : length id = 4%nat) by (destruct Hloc; [reflexivity | assumption]).
  unfold LoadeWaveFile. rewrite LoadeWaveFile_body_located.
  erewrite bind_Normal by (apply data_chunk_located; exact Hloc). cbv beta.
  rewrite after_data_chunk_located_short by exact Hlen.
  fold stale. rewrite convert_to_int_le_signed
    by (subst stale; rewrite store_prefix_length; lia).
  reflexivity.
Qed.

(** A stream that ends inside the four bytes of the length of an extra
    chunk. *)
Lemma cut_in_extra_length stack (fields tag partial : list byte) :
  length fields = 32%nat ->
  length tag = 4%nat -> tag <> bytes_of "data" ->
  (length partial < 4)%nat ->
  let stale := store_prefix partial tag in
  let v := le_signed stale in
  let w0 := fixed_fields_of fields new_WaveFile in
  let out := diagnostics (slice 0 4 fields) in
  LoadeWaveFile host stack (Some (fields ++ tag ++ partial))
  = if v <? 0 then Raised bad_alloc (exhausted stale out w0)
    else let w := set_data {| capacity := v; initialized := [] |}
                    (set_subchunk_2_size v (set_subchunk_2_id v w0)) in
         Normal w (exhausted stale out w).
Proof.
  intros Hf Ht Hne Hlen stale v w0 out.
  assert (Hst : length stale = 4%nat)
    by (subst stale; rewrite store_prefix_length; lia).
  destruct stack as [[[g0 g1] g2] g3].
  unfold LoadeWaveFile. rewrite LoadeWaveFile_body_located.
  unfold entry_state, ifstream_open.
  destruct (read_fixed_fields_exact host fields (tag ++ partial)
              [g0; g1; g2; g3] [] new_WaveFile Hf eq_refl)
    as (g' & Hg' & Efix).
  rewrite bind_assoc. rewrite (bind_Normal _ _ _ _ _ Efix).
  fold w0. cbn [app]. fold out.
  pose proof Hne as Hne'.
  explicit_list tag Ht. explicit_list g' Hg'.
  cbn [app]. unfold locate_data_chunk.
  rewrite !bind_assoc. run_with file_read_4.
  unfold skip_extra_chunk.
  rewrite !bind_assoc. run_with get_buffer_run. cbn [buffer].
  match goal with
  | |- context [strncmp ?t data_tag 4 =? 0] =>
      destruct (Z.eqb_spec (strncmp t data_tag 4) 0) as [E | _]
  end.
  { apply strncmp_data_tag in E. contradiction. }
  cbn [negb].
  rewrite !bind_assoc.
  erewrite bind_Normal by (apply file_read_short; lia). cbv beta.
  fold stale.
  rewrite !bind_assoc. run_with (decode_run host).
  unfold exhausted at 1. cbn [buffer].
  rewrite (convert_to_int_le_signed stale Hst). fold v.
  rewrite !bind_assoc. unfold new_char_array at 1. unfold bind at 1.
  destruct (v <? 0) eqn:Hv; [reflexivity | ].
  rewrite !bind_assoc.
  erewrite bind_Normal by (apply file_read_into_drained; reflexivity). cbv beta.
  erewrite bind_Normal by (apply read_field_drained; reflexivity). cbv beta.
  rewrite after_data_chunk_located_drained by reflexivity.
  cbn [buffer exhausted with_wave_file wave_file file console].
  rewrite (convert_to_int_le_signed stale Hst). fold v. rewrite Hv.
  reflexivity.
Qed.

(** A stream that ends inside the four bytes after an extra chunk. *)
Lemma cut_after_extra_chunk stack (fields tag len body partial : list byte) :
  length fields = 32%nat ->
  length tag = 4%nat -> tag <> bytes_of "data" ->
  length len = 4%nat -> le_signed len = Z.of_nat (length body) ->
  (length partial < 4)%nat ->
  let stale := store_prefix partial len in
  let v := le_signed stale in
  let w1 := set_subchunk_2_size v
              (set_subchunk_2_id v (fixed_fields_of fields new_WaveFile)) in
  let out := diagnostics (slice 0 4 fields) in
  LoadeWaveFile host stack (Some (fields ++ tag ++ len ++ body ++ partial))
  = if v <? 0 then Raised bad_alloc (exhausted stale out w1)
    else let w := set_data {| capacity := v; initialized := [] |} w1 in
         Normal w (exhausted stale out w).
Proof.
  intros Hf Ht Hne Hl Hbody Hlen.
  explicit_list tag Ht. explicit_list len Hl.
  intros stale v w1 out.
  assert (Hst : length stale = 4%nat)
    by (subst stale; rewrite store_prefix_length; cbn [length]; lia).
  destruct stack as [[[g0 g1] g2] g3].
  unfold LoadeWaveFile. rewrite LoadeWaveFile_body_located.
  unfold entry_state, ifstream_open.
  match goal with
  | |- context [fields ++ ?tl] =>
      destruct (read_fixed_fields_exact host fields tl
                  [g0; g1; g2; g3] [] new_WaveFile Hf eq_refl)
        as (g' & Hg' & Efix)
  end.
  rewrite bind_assoc. rewrite (bind_Normal _ _ _ _ _ Efix).
  cbn [app]. fold out.
  explicit_list g' Hg'.
  unfold locate_data_chunk.
  rewrite !bind_assoc. run_with file_read_4.
  unfold skip_extra_chunk.
  rewrite !bind_assoc. run_with get_buffer_run. cbn [buffer].
  match goal with
  | |- context [strncmp ?t data_tag 4 =? 0] =>
      destruct (Z.eqb_spec (strncmp t data_tag 4) 0) as [E | _]
  end.
  { apply strncmp_data_tag in E. contradiction. }
  cbn [negb].
  rewrite !bind_assoc. run_with file_read_4.
  rewrite !bind_assoc. run_with (decode_run host). cbn [buffer].
  rewrite convert_to_int_le_signed_4, Hbody.
  rewrite !bind_assoc.
  erewrite bind_Normal by (apply new_char_array_run; lia). cbv beta.
  rewrite !bind_assoc. run_with file_read_into_exact.
  erewrite bind_Normal by (apply read_field_short; lia). cbv beta.
  fold stale.
  rewrite after_data_chunk_located_drained by reflexivity.
  cbn [buffer exhausted with_wave_file wave_file file console].
  rewrite (convert_to_int_le_signed stale Hst). fold v.
  reflexivity.
Qed.

End Cut.

(** One statement of lines 127-152 on an explicit stream: served in full,
    cut short, or run after the stream was exhausted. *)
Ltac cut_step :=
  rewrite ?bind_assoc;
  first
    [ erewrite bind_Normal by (apply read_magic_exact)
    | erewrite bind_Normal by (apply read_field_4)
    | erewrite bind_Normal by (apply read_field_2)
    | erewrite bind_Normal by (apply read_magic_short; cbn; lia)
    | erewrite bind_Normal by (apply read_field_short; cbn; lia)
    | erewrite bind_Normal by (apply file_read_short; cbn; lia)
    | erewrite bind_Normal by (apply read_field_drained_explicit; reflexivity)
    | erewrite bind_Normal by (apply file_read_drained; reflexivity) ];
  cbv beta; unfold exhausted; cbn [store_prefix length skipn app].

Ltac cut_case host :=
  unfold LoadeWaveFile; rewrite LoadeWaveFile_body_split;
  unfold entry_state, ifstream_open, read_fixed_fields;
  do 11 cut_step;
  rewrite drained_tail by reflexivity;
  cbv [refill header_reads member_bytes cut_fields_of slice store_prefix
       firstn skipn length Nat.ltb Nat.leb Nat.add app exhausted
       with_wave_file buffer wave_file file console
       set_data set_subchunk_2_size set_subchunk_2_id
       set_bits_per_sample set_block_align set_byte_rate set_sample_rate
       set_num_channels set_audio_format set_subchunk_1_id set_format
       set_chunk_size set_chunk_id new_WaveFile
       chunk_id chunk_size format subchunk_1_id subchunk_1_size audio_format
       num_channels sample_rate byte_rate block_align bits_per_sample
       subchunk_2_id subchunk_2_size data];
  rewrite ?(convert_to_int_le_signed_4 host), ?(convert_to_int_le_signed_2 host);
  reflexivity.

(** A stream that ends inside the fixed fields or the lookahead: every
    member read before the cut holds its bytes, and every member from the
    cut on is decoded from the buffer as the short read left it. *)
Lemma cut_in_header (host : byte_order) (g0 g1 g2 g3 : byte) (stream : list byte) :
  (length stream < 36)%nat ->
  let stale := refill header_reads stream [g0; g1; g2; g3] in
  let v := le_signed stale in
  let w0 := cut_fields_of stream stale new_WaveFile in
  let out := diagnostics (member_bytes stream stale 0 4) in
  LoadeWaveFile host (g0, g1, g2, g3) (Some stream)
  = if v <? 0
    then Raised bad_alloc (exhausted stale out w0)
    else let w := set_data {| capacity := v; initialized := [] |}
                    (set_subchunk_2_size v (set_subchunk_2_id v w0)) in
         Normal w (exhausted stale out w).
Proof.
  intros Hlen. cbv zeta.
  do 36 (destruct stream as [| ? stream]; [ cut_case host | ]).
  exfalso. cbn [length] in Hlen. lia.
Qed.

(** The loader on a stream in which it finds a data chunk: the state in
    which lines 168-173 start, and the member they leave alone. *)
Lemma LoadeWaveFile_from_located (host : byte_order) stack
    (prefix id rest : list byte) :
  located prefix id ->
  let s1 := {| file := {| unread := rest; good := true |}; buffer := id;
               console := diagnostics (slice 0 4 prefix);
               wave_file := set_subchunk_2_id (le_signed id)
                              (fixed_fields_of (slice 0 32 prefix) new_WaveFile) |} in
  let r := LoadeWaveFile host stack (Some (prefix ++ rest)) in
  r = after_data_chunk_located host s1 /\
  subchunk_2_id (wave_file (final_state r)) = le_signed id /\
  match returned r with
  | Some w => subchunk_2_id w = le_signed id
  | None => True
  end.
Proof.
  intros Hloc s1 r.
  assert (Er : r = after_data_chunk_located host s1).
  { subst r. unfold LoadeWaveFile. rewrite LoadeWaveFile_body_located.
    erewrite bind_Normal by (apply data_chunk_located; exact Hloc).
    reflexivity. }
  assert (H : subchunk_2_id (wave_file (final_state r)) = le_signed id).
  { rewrite Er.
    apply (preserves_run
             (fun s => subchunk_2_id (wave_file s) = le_signed id)).
    { unfold after_data_chunk_located. repeat preserves_step. }
    reflexivity. }
  pose proof (returned_wave_file r host stack _ eq_refl) as Hw.
  clearbody r. split; [exact Er | split; [exact H | ]].
  destruct (returned r) as [w | ]; [now rewrite Hw | exact I].
Qed.

(** * The claims about the loader *)

(** C1 — the minimal canonical mono 8-bit PCM file.  The loader reads no
    Subchunk1Size, so from offset 16 on every member is taken four bytes
    too early: the size 16 becomes [audio_format], the channel count is
    read from the two zero bytes after it, [sample_rate] straddles
    AudioFormat and NumChannels, the lookahead falls on BlockAlign and
    BitsPerSample, and "data" is taken for the length of an extra chunk,
    which exhausts the stream.  The record returned has 0 channels, sample
    rate 65537, a payload size of 1635017060 and no payload byte. *)
Theorem minimal_pcm_is_misread (host : byte_order)
    (stack : byte * byte * byte * byte) :
  exists w s,
    LoadeWaveFile host stack (Some minimal_pcm) = Normal w s /\
    audio_format w = 16 /\
    num_channels w = 0 /\
    sample_rate w = 65537 /\
    bits_per_sample w = 0 /\
    subchunk_2_size w = 1635017060 /\
    data w = Some {| capacity := 1635017060; initialized := [] |} /\
    drained s.
Proof.
  destruct stack as [[[g0 g1] g2] g3].
  destruct host; do 2 eexists;
    (split; [vm_compute; reflexivity | ]);
    repeat split; vm_compute; reflexivity.
Qed.

(** C7 — round trip.  Written back with the layout of the format, the
    record loaded from the minimal canonical file is not the file: it has
    0 where the file has its Subchunk1Size 16, the members after it are
    shifted, and no payload byte was loaded. *)
Theorem minimal_pcm_round_trip_fails (host : byte_order)
    (stack : byte * byte * byte * byte) :
  exists w s,
    LoadeWaveFile host stack (Some minimal_pcm) = Normal w s /\
    layout_serialize w <> minimal_pcm /\
    slice 16 4 (layout_serialize w) = [x00; x00; x00; x00] /\
    slice 16 4 minimal_pcm = [x10; x00; x00; x00] /\
    length (layout_serialize w) = 44%nat /\
    length minimal_pcm = 48%nat.
Proof.
  destruct stack as [[[g0 g1] g2] g3].
  destruct host; do 2 eexists;
    (split; [vm_compute; reflexivity | ]);
    (split; [vm_compute; discriminate | ]);
    repeat split; vm_compute; reflexivity.
Qed.

(** C4, as stated, fails: a stream that starts with "RIFX" is loaded
    like any other; the record is returned, with the four characters
    decoded into [chunk_id], and the only trace of the mismatch is the
    line printed on standard output. *)
Lemma rifx_is_loaded :
  exists w s,
    LoadeWaveFile little_endian zero_stack (Some rifx_pcm) = Normal w s /\
    chunk_id w = le_signed (bytes_of "RIFX") /\
    console s = [not_valid_message].
Proof.
  do 2 eexists. split; [vm_compute; reflexivity | ].
  split; vm_compute; reflexivity.
Qed.

(** C4 (amended) — for every stream whose first four bytes are not
    "RIFF", the loader prints its diagnostic, once, and goes on.  The
    four bytes are decoded into [chunk_id] all the same, and the outcome
    is that of lines 134-173 run on the rest of the stream: the loader
    carries on with the next field as it does after a "RIFF".  The
    mismatch is not an error: the record that is returned carries the
    decoded value in [chunk_id], and the loader stops without returning
    only where it does on any input, on an array length that decodes to a
    negative number. *)
Theorem non_RIFF_magic_is_only_reported (host : byte_order)
    (stack : byte * byte * byte * byte) (t0 t1 t2 t3 : byte) (rest : list byte) :
  [t0; t1; t2; t3] <> bytes_of "RIFF" ->
  let r := LoadeWaveFile host stack (Some (t0 :: t1 :: t2 :: t3 :: rest)) in
  r = after_magic host
        {| file := {| unread := rest; good := true |};
           buffer := [t0; t1; t2; t3];
           console := [not_valid_message];
           wave_file := set_chunk_id (le_signed [t0; t1; t2; t3]) new_WaveFile |} /\
  console (final_state r) = [not_valid_message] /\
  chunk_id (wave_file (final_state r)) = le_signed [t0; t1; t2; t3] /\
  match r with
  | Normal w _ => chunk_id w = le_signed [t0; t1; t2; t3]
  | Raised _ s => convert_to_int host (buffer s) 4 < 0
  end.
Proof.
  intros Hne r.
  assert (Hout : diagnostics [t0; t1; t2; t3] = [not_valid_message]).
  { unfold diagnostics.
    destruct (Z.eqb_spec (strncmp [t0; t1; t2; t3] RIFF 4) 0) as [E | _];
      [ | reflexivity].
    apply strncmp_RIFF in E. cbn [firstn] in E. contradiction. }
  assert (Er : r = after_magic host
                     {| file := {| unread := rest; good := true |};
                        buffer := [t0; t1; t2; t3];
                        console := [not_valid_message];
                        wave_file := set_chunk_id (le_signed [t0; t1; t2; t3])
                                       new_WaveFile |}).
  { subst r. destruct stack as [[[g0 g1] g2] g3].
    unfold LoadeWaveFile, LoadeWaveFile_body, read_fixed_fields, entry_state,
      ifstream_open.
    rewrite bind_assoc. run_with read_magic_exact.
    cbn [app]. rewrite Hout, convert_to_int_le_signed_4.
    unfold after_magic, read_fields_after_magic. reflexivity. }
  assert (H : console (final_state r) = [not_valid_message] /\
              chunk_id (wave_file (final_state r)) = le_signed [t0; t1; t2; t3]).
  { rewrite Er.
    apply (preserves_run
             (fun s => console s = [not_valid_message] /\
                       chunk_id (wave_file s) = le_signed [t0; t1; t2; t3])).
    { unfold after_magic, read_fields_after_magic. repeat preserves_step. }
    split; reflexivity. }
  pose proof (LoadeWaveFile_outcome host stack
                (Some (t0 :: t1 :: t2 :: t3 :: rest))) as Hr.
  fold r in Hr. clearbody r. destruct H as [Hcon Hid].
  split; [exact Er | split; [exact Hcon | split; [exact Hid | ]]].
  destruct r as [w s | e s]; cbn [final_state] in Hid.
  - destruct Hr as [-> _]. exact Hid.
  - apply Hr.
Qed.

Lemma non_RIFF_magic_is_only_reported_witness :
  [x52; x49; x46; x58] <> bytes_of "RIFF" /\
  let r := LoadeWaveFile big_endian zero_stack
             (Some (x52 :: x49 :: x46 :: x58 :: skipn 4 minimal_pcm)) in
  r = after_magic big_endian
        {| file := {| unread := skipn 4 minimal_pcm; good := true |};
           buffer := [x52; x49; x46; x58];
           console := [not_valid_message];
           wave_file := set_chunk_id (le_signed [x52; x49; x46; x58]) new_WaveFile |} /\
  console (final_state r) = [not_valid_message] /\
  chunk_id (wave_file (final_state r)) = le_signed [x52; x49; x46; x58] /\
  match r with
  | Normal w _ => chunk_id w = le_signed [x52; x49; x46; x58]
  | Raised _ s => convert_to_int big_endian (buffer s) 4 < 0
  end.
Proof.
  split; [discriminate | ].
  apply (non_RIFF_magic_is_only_reported big_endian zero_stack
           x52 x49 x46 x58 (skipn 4 minimal_pcm)).
  discriminate.
Defined.

(** C5, as stated, fails: for the stream cut off right after "fmt " the
    loader returns a record.  The members after [subchunk_1_id] are not
    zero either: each is decoded from the characters "fmt " still lying in
    the buffer, and the payload array has 544501094 cells, none written. *)
Lemma cut_after_fmt_is_loaded :
  returned (LoadeWaveFile little_endian zero_stack (Some cut_after_fmt))
  = Some {| chunk_id := 1179011410; chunk_size := 44; format := 1163280727;
            subchunk_1_id := 544501094; subchunk_1_size := 0;
            audio_format := 28006; num_channels := 28006;
            sample_rate := 544501094; byte_rate := 544501094;
            block_align := 28006; bits_per_sample := 28006;
            subchunk_2_id := 544501094; subchunk_2_size := 544501094;
            data := Some {| capacity := 544501094; initialized := [] |} |}.
Proof. vm_compute. reflexivity. Qed.

(** C5 (amended) — a stream that ends before a fixed-width field is read
    in full.  No truncation is reported.  The short read stores the bytes
    that are left at the start of the four-character buffer, whose other
    cells keep what the previous reads put there ([stale] below); the
    stream is exhausted, every later read stores nothing, and every member
    assigned from the cut on is decoded from [stale], at its own width.
    With [v] the [int] that [stale] decodes to, the loader returns a record
    whose payload array has [v] cells, none of them written; when [v] is
    negative the array allocation throws instead.  The four conjuncts are
    the four places where a fixed-width field is read:
    - the fixed fields and the lookahead (a stream of fewer than 36
      bytes): the members read before the cut hold their own bytes, the
      others and [subchunk_2_id], [subchunk_2_size] are decoded from
      [stale];
    - the length of an extra chunk: [stale] is what is left of the
      lookahead, and it gives the length, [subchunk_2_id] and
      [subchunk_2_size];
    - the four bytes after an extra chunk: [stale] is what is left of the
      length, and it gives [subchunk_2_id] and [subchunk_2_size];
    - the size of the data chunk: [stale] is what is left of the
      characters decoded into [subchunk_2_id], and it gives
      [subchunk_2_size]. *)
Theorem short_stream_is_loaded_from_stale_buffer (host : byte_order)
    (g0 g1 g2 g3 : byte) :
  (forall stream : list byte,
     (length stream < 36)%nat ->
     let stale := refill header_reads stream [g0; g1; g2; g3] in
     let v := le_signed stale in
     let w0 := cut_fields_of stream stale new_WaveFile in
     let out := diagnostics (member_bytes stream stale 0 4) in
     LoadeWaveFile host (g0, g1, g2, g3) (Some stream)
     = if v <? 0
       then Raised bad_alloc (exhausted stale out w0)
       else let w := set_data {| capacity := v; initialized := [] |}
                       (set_subchunk_2_size v (set_subchunk_2_id v w0)) in
            Normal w (exhausted stale out w)) /\
  (forall fields tag partial : list byte,
     length fields = 32%nat ->
     length tag = 4%nat -> tag <> bytes_of "data" ->
     (length partial < 4)%nat ->
     let stale := store_prefix partial tag in
     let v := le_signed stale in
     let w0 := fixed_fields_of fields new_WaveFile in
     let out := diagnostics (slice 0 4 fields) in
     LoadeWaveFile host (g0, g1, g2, g3) (Some (fields ++ tag ++ partial))
     = if v <? 0
       then Raised bad_alloc (exhausted stale out w0)
       else let w := set_data {| capacity := v; initialized := [] |}
                       (set_subchunk_2_size v (set_subchunk_2_id v w0)) in
            Normal w (exhausted stale out w)) /\
  (forall fields tag len body partial : list byte,
     length fields = 32%nat ->
     length tag = 4%nat -> tag <> bytes_of "data" ->
     length len = 4%nat -> le_signed len = Z.of_nat (length body) ->
     (length partial < 4)%nat ->
     let stale := store_prefix partial len in
     let v := le_signed stale in
     let w1 := set_subchunk_2_size v
                 (set_subchunk_2_id v (fixed_fields_of fields new_WaveFile)) in
     let out := diagnostics (slice 0 4 fields) in
     LoadeWaveFile host (g0, g1, g2, g3)
       (Some (fields ++ tag ++ len ++ body ++ partial))
     = if v <? 0
       then Raised bad_alloc (exhausted stale out w1)
       else let w := set_data {| capacity := v; initialized := [] |} w1 in
            Normal w (exhausted stale out w)) /\
  (forall prefix id partial : list byte,
     located prefix id ->
     (length partial < 4)%nat ->
     let stale := store_prefix partial id in
     let v := le_signed stale in
     let w1 := set_subchunk_2_size v
                 (set_subchunk_2_id (le_signed id)
                    (fixed_fields_of (slice 0 32 prefix) new_WaveFile)) in
     let out := diagnostics (slice 0 4 prefix) in
     LoadeWaveFile host (g0, g1, g2, g3) (Some (prefix ++ partial))
     = if v <? 0
       then Raised bad_alloc (exhausted stale out w1)
       else let w := set_data {| capacity := v; initialized := [] |} w1 in
            Normal w (exhausted stale out w)).
Proof.
  split; [ | split; [ | split]].
  - intros stream Hlen. now apply cut_in_header.
  - intros fields tag partial Hf Ht Hne Hlen.
    now apply cut_in_extra_length.
  - intros fields tag len body partial Hf Ht Hne Hl Hbody Hlen.
    now apply cut_after_extra_chunk.
  - intros prefix id partial Hloc Hlen.
    now apply cut_in_size.
Qed.

(** The stream cut off after "fmt ", and the canonical fields followed by
    "data" and two of the four bytes of the size. *)
Lemma short_stream_is_loaded_from_stale_buffer_witness :
  ((length cut_after_fmt < 36)%nat /\
   let stale := refill header_reads cut_after_fmt [x00; x00; x00; x00] in
   let v := le_signed stale in
   let w0 := cut_fields_of cut_after_fmt stale new_WaveFile in
   let out := diagnostics (member_bytes cut_after_fmt stale 0 4) in
   LoadeWaveFile little_endian (x00, x00, x00, x00) (Some cut_after_fmt)
   = if v <? 0
     then Raised bad_alloc (exhausted stale out w0)
     else let w := set_data {| capacity := v; initialized := [] |}
                     (set_subchunk_2_size v (set_subchunk_2_id v w0)) in
          Normal w (exhausted stale out w)) /\
  (located (fixed_fields_pcm ++ bytes_of "data") (bytes_of "data") /\
   (length [x08; x00] < 4)%nat /\
   let prefix := fixed_fields_pcm ++ bytes_of "data" in
   let stale := store_prefix [x08; x00] (bytes_of "data") in
   let v := le_signed stale in
   let w1 := set_subchunk_2_size v
               (set_subchunk_2_id (le_signed (bytes_of "data"))
                  (fixed_fields_of (slice 0 32 prefix) new_WaveFile)) in
   let out := diagnostics (slice 0 4 prefix) in
   LoadeWaveFile little_endian (x00, x00, x00, x00)
     (Some (prefix ++ [x08; x00]))
   = if v <? 0
     then Raised bad_alloc (exhausted stale out w1)
     else let w := set_data {| capacity := v; initialized := [] |} w1 in
          Normal w (exhausted stale out w)).
Proof.
  assert (Hlen : (length cut_after_fmt < 36)%nat) by (vm_compute; lia).
  assert (Hloc : located (fixed_fields_pcm ++ bytes_of "data") (bytes_of "data"))
    by (apply located_lookahead; reflexivity).
  assert (Hpart : (length [x08; x00] < 4)%nat) by (cbn [length]; lia).
  destruct (short_stream_is_loaded_from_stale_buffer little_endian
              x00 x00 x00 x00) as (Hheader & _ & _ & Hsize).
  split.
  - split; [exact Hlen | ]. exact (Hheader cut_after_fmt Hlen).
  - split; [exact Hloc | ]. split; [exact Hpart | ].
    exact (Hsize (fixed_fields_pcm ++ bytes_of "data") (bytes_of "data")
             [x08; x00] Hloc Hpart).
Defined.

(** The two streams of the example, evaluated: after "fmt " every member
    is decoded from "fmt "; with two bytes of the size, [subchunk_2_size]
    is decoded from those two bytes followed by the "ta" of "data". *)
Example cut_streams_scenario :
  refill header_reads cut_after_fmt [x00; x00; x00; x00] = bytes_of "fmt " /\
  store_prefix [x08; x00] (bytes_of "data") = [x08; x00; x74; x61] /\
  returned
    (LoadeWaveFile little_endian zero_stack
       (Some (fixed_fields_pcm ++ bytes_of "data" ++ [x08; x00])))
  = Some {| chunk_id := 1179011410; chunk_size := 40; format := 1163280727;
            subchunk_1_id := 544501094; subchunk_1_size := 0;
            audio_format := 1; num_channels := 1;
            sample_rate := 8000; byte_rate := 8000;
            block_align := 1; bits_per_sample := 8;
            subchunk_2_id := 1635017060; subchunk_2_size := 1634992136;
            data := Some {| capacity := 1634992136; initialized := [] |} |}.
Proof. repeat split; vm_compute; reflexivity. Qed.

(** C6, as stated, fails: a data chunk that announces eight bytes on a
    stream holding three is loaded; the record has [subchunk_2_size] 8 and
    a payload array of eight cells of which three were written. *)
Lemma short_payload_is_loaded :
  returned (LoadeWaveFile little_endian zero_stack (Some short_payload))
  = Some {| chunk_id := 1179011410; chunk_size := 40; format := 1163280727;
            subchunk_1_id := 544501094; subchunk_1_size := 0;
            audio_format := 1; num_channels := 1;
            sample_rate := 8000; byte_rate := 8000;
            block_align := 1; bits_per_sample := 8;
            subchunk_2_id := 1635017060; subchunk_2_size := 8;
            data := Some {| capacity := 8; initialized := [x01; x02; x03] |} |}.
Proof. vm_compute. reflexivity. Qed.

(** C6 (amended) — for every stream on which the loader finds a data
    chunk whose decoded size exceeds the bytes that remain, the loader
    returns a record: [subchunk_2_size] is the decoded size, the payload
    array has that many cells, and only the first of them, as many as the
    stream still held, are written.  The short read leaves the stream in
    its failed state and is not reported. *)
Theorem oversized_payload_is_read_short (host : byte_order)
    (stack : byte * byte * byte * byte) (prefix id size rest : list byte) :
  located prefix id ->
  length size = 4%nat ->
  Z.of_nat (length rest) < le_signed size ->
  exists w s,
    LoadeWaveFile host stack (Some (prefix ++ size ++ rest)) = Normal w s /\
    subchunk_2_size w = le_signed size /\
    data w = Some {| capacity := le_signed size; initialized := rest |} /\
    partially_populated w = true /\
    drained s.
Proof.
  intros Hloc Hsize Hshort.
  rewrite (LoadeWaveFile_located host stack prefix id size rest Hloc Hsize).
  destruct (Z.ltb_spec (le_signed size) 0) as [Hneg | _]; [lia | ].
  unfold istream_read. cbn [good unread].
  rewrite sgetn_short by lia. cbn [fst snd].
  do 2 eexists. split; [reflexivity | ].
  unfold partially_populated, drained.
  cbn [data set_data subchunk_2_size set_subchunk_2_size capacity initialized
       file good].
  repeat split.
  - now apply Z.ltb_lt.
  - apply Z.eqb_neq. lia.
Qed.

Lemma oversized_payload_is_read_short_witness :
  located (fixed_fields_pcm ++ bytes_of "data") (bytes_of "data") /\
  length [x08; x00; x00; x00] = 4%nat /\
  Z.of_nat (length [x01; x02; x03]) < le_signed [x08; x00; x00; x00] /\
  exists w s,
    LoadeWaveFile big_endian zero_stack
      (Some ((fixed_fields_pcm ++ bytes_of "data")
             ++ [x08; x00; x00; x00] ++ [x01; x02; x03]))
    = Normal w s /\
    subchunk_2_size w = le_signed [x08; x00; x00; x00] /\
    data w = Some {| capacity := le_signed [x08; x00; x00; x00];
                     initialized := [x01; x02; x03] |} /\
    partially_populated w = true /\
    drained s.
Proof.
  assert (Hloc : located (fixed_fields_pcm ++ bytes_of "data") (bytes_of "data"))
    by (apply located_lookahead; reflexivity).
  split; [exact Hloc | ]. split; [reflexivity | ].
  split; [vm_compute; reflexivity | ].
  apply (oversized_payload_is_read_short big_endian zero_stack
           (fixed_fields_pcm ++ bytes_of "data") (bytes_of "data")
           [x08; x00; x00; x00] [x01; x02; x03] Hloc);
    [reflexivity | vm_compute; reflexivity].
Defined.



(** C9, as stated, fails on a stream that ends inside the extra chunk.
    Here the lookahead is "LIST", the length that follows it is 2, and a
    single byte is left: the loader cannot pass over two bytes, no four
    bytes follow, and [subchunk_2_id] (like [subchunk_2_size]) is decoded
    from the length of the extra chunk, still lying in the buffer. *)
Lemma extra_chunk_cut_short :
  slice 32 4 short_extension = bytes_of "LIST" /\
  le_signed (slice 36 4 short_extension) = 2 /\
  length (skipn 40 short_extension) = 1%nat /\
  returned (LoadeWaveFile little_endian zero_stack (Some short_extension))
  = Some {| chunk_id := 1179011410; chunk_size := 40; format := 1163280727;
            subchunk_1_id := 544501094; subchunk_1_size := 0;
            audio_format := 1; num_channels := 1;
            sample_rate := 8000; byte_rate := 8000;
            block_align := 1; bits_per_sample := 8;
            subchunk_2_id := 2; subchunk_2_size := 2;
            data := Some {| capacity := 2; initialized := [] |} |}.
Proof. repeat split; vm_compute; reflexivity. Qed.

(** C9 (amended) — the lookahead.  On a stream that holds, after the
    fixed fields, a tag other than "data", a length [N], [N] further bytes
    and four bytes [id], whatever comes after them, the loader takes the
    four bytes after the tag for [N], passes over exactly the [N] bytes,
    and decodes [id] into [subchunk_2_id]: lines 127-166 leave the stream
    right after [id], the outcome of the loader is that of lines 168-173
    run from there (the size and the payload are read from what follows
    [id]), and [subchunk_2_id] holds the value of [id] when the loader
    stops, in the record it returns if it returns one.  When the
    lookahead is "data", it is the lookahead itself that is decoded into
    [subchunk_2_id], and the stream is left right after it. *)
Theorem extra_chunk_is_skipped (host : byte_order)
    (stack : byte * byte * byte * byte)
    (fields tag len body id rest : list byte) :
  length fields = 32%nat ->
  length tag = 4%nat -> tag <> bytes_of "data" ->
  length len = 4%nat -> le_signed len = Z.of_nat (length body) ->
  length id = 4%nat ->
  let located_at (id' : list byte) :=
    {| file := {| unread := rest; good := true |}; buffer := id';
       console := diagnostics (slice 0 4 fields);
       wave_file := set_subchunk_2_id (le_signed id')
                      (fixed_fields_of fields new_WaveFile) |} in
  (let stream := fields ++ tag ++ len ++ body ++ id ++ rest in
   let r := LoadeWaveFile host stack (Some stream) in
   (read_fixed_fields host ;; locate_data_chunk host)
     (entry_state stack (Some stream))
   = Normal tt (located_at id) /\
   r = after_data_chunk_located host (located_at id) /\
   subchunk_2_id (wave_file (final_state r)) = le_signed id /\
   match returned r with
   | Some w => subchunk_2_id w = le_signed id
   | None => True
   end) /\
  (let stream := fields ++ bytes_of "data" ++ rest in
   let r := LoadeWaveFile host stack (Some stream) in
   (read_fixed_fields host ;; locate_data_chunk host)
     (entry_state stack (Some stream))
   = Normal tt (located_at (bytes_of "data")) /\
   r = after_data_chunk_located host (located_at (bytes_of "data")) /\
   subchunk_2_id (wave_file (final_state r)) = le_signed (bytes_of "data") /\
   match returned r with
   | Some w => subchunk_2_id w = le_signed (bytes_of "data")
   | None => True
   end).
Proof.
  intros Hf Ht Hne Hl Hbody Hi located_at.
  assert (Hfrom : forall prefix id',
             located prefix id' ->
             slice 0 32 prefix = fields -> slice 0 4 prefix = slice 0 4 fields ->
             let r := LoadeWaveFile host stack (Some (prefix ++ rest)) in
             (read_fixed_fields host ;; locate_data_chunk host)
               (entry_state stack (Some (prefix ++ rest)))
             = Normal tt (located_at id') /\
             r = after_data_chunk_located host (located_at id') /\
             subchunk_2_id (wave_file (final_state r)) = le_signed id' /\
             match returned r with
             | Some w => subchunk_2_id w = le_signed id'
             | None => True
             end).
  { intros prefix id' Hloc E32 E4 r.
    pose proof (data_chunk_located host stack prefix id' rest Hloc) as E1.
    pose proof (LoadeWaveFile_from_located host stack prefix id' rest Hloc) as E2.
    cbv zeta in E2. fold r in E2. clearbody r.
    rewrite E32, E4 in E1, E2.
    split; [exact E1 | exact E2]. }
  split.
  - pose proof (Hfrom (fields ++ tag ++ len ++ body ++ id) id) as H.
    rewrite <- !app_assoc in H.
    apply H.
    + rewrite !app_assoc. rewrite <- !app_assoc. now apply located_after_extra.
    + now apply slice_fields_32.
    + now apply slice_fields_4.
  - pose proof (Hfrom (fields ++ bytes_of "data") (bytes_of "data")) as H.
    rewrite <- !app_assoc in H.
    apply H.
    + now apply located_lookahead.
    + now apply slice_fields_32.
    + now apply slice_fields_4.
Qed.

Lemma extra_chunk_is_skipped_witness :
  let host := little_endian in
  let stack := zero_stack in
  let fields := fixed_fields_pcm in
  let tag := bytes_of "LIST" in
  let len := [x02; x00; x00; x00] in
  let body := [x00; x00] in
  let id := bytes_of "data" in
  let rest := [x08; x00] in
  (length fields = 32%nat /\
   length tag = 4%nat /\ tag <> bytes_of "data" /\
   length len = 4%nat /\ le_signed len = Z.of_nat (length body) /\
   length id = 4%nat) /\
  let located_at (id' : list byte) :=
    {| file := {| unread := rest; good := true |}; buffer := id';
       console := diagnostics (slice 0 4 fields);
       wave_file := set_subchunk_2_id (le_signed id')
                      (fixed_fields_of fields new_WaveFile) |} in
  (let stream := fields ++ tag ++ len ++ body ++ id ++ rest in
   let r := LoadeWaveFile host stack (Some stream) in
   (read_fixed_fields host ;; locate_data_chunk host)
     (entry_state stack (Some stream))
   = Normal tt (located_at id) /\
   r = after_data_chunk_located host (located_at id) /\
   subchunk_2_id (wave_file (final_state r)) = le_signed id /\
   match returned r with
   | Some w => subchunk_2_id w = le_signed id
   | None => True
   end) /\
  (let stream := fields ++ bytes_of "data" ++ rest in
   let r := LoadeWaveFile host stack (Some stream) in
   (read_fixed_fields host ;; locate_data_chunk host)
     (entry_state stack (Some stream))
   = Normal tt (located_at (bytes_of "data")) /\
   r = after_data_chunk_located host (located_at (bytes_of "data")) /\
   subchunk_2_id (wave_file (final_state r)) = le_signed (bytes_of "data") /\
   match returned r with
   | Some w => subchunk_2_id w = le_signed (bytes_of "data")
   | None => True
   end).
Proof.
  intros host stack fields tag len body id rest.
  assert (H : length fields = 32%nat /\
              length tag = 4%nat /\ tag <> bytes_of "data" /\
              length len = 4%nat /\ le_signed len = Z.of_nat (length body) /\
              length id = 4%nat).
  { repeat split; try reflexivity; try discriminate. }
  split; [exact H | ].
  destruct H as (Hf & Ht & Hne & Hl & Hbody & Hi).
  exact (extra_chunk_is_skipped host stack fields tag len body id rest
           Hf Ht Hne Hl Hbody Hi).
Defined.

(** The spec's own scenario for the extra chunk: length 2, content
    [00 00], then "data", size 8 and eight payload bytes. *)
Example extra_chunk_scenario :
  returned
    (LoadeWaveFile little_endian zero_stack
       (Some (fixed_fields_pcm ++ bytes_of "LIST" ++ [x02; x00; x00; x00]
              ++ [x00; x00] ++ bytes_of "data" ++ [x08; x00; x00; x00]
              ++ [x01; x02; x03; x04; x05; x06; x07; x08])))
  = Some {| chunk_id := 1179011410; chunk_size := 40; format := 1163280727;
            subchunk_1_id := 544501094; subchunk_1_size := 0;
            audio_format := 1; num_channels := 1;
            sample_rate := 8000; byte_rate := 8000;
            block_align := 1; bits_per_sample := 8;
            subchunk_2_id := 1635017060; subchunk_2_size := 8;
            data := Some {| capacity := 8;
                            initialized :=
                              [x01; x02; x03; x04; x05; x06; x07; x08] |} |}.
Proof. vm_compute. reflexivity. Qed.

(** C10 — [subchunk_1_size] is never assigned: whatever the input, the
    member still holds the 0 of the value-initialised record when the
    loader stops, and so does the record it returns.  Nor is a
    Subchunk1Size read and dropped: on every stream of at least eighteen
    bytes, [subchunk_1_id] is decoded from the bytes at offsets 12 to 15
    and [audio_format] from the two bytes right after them, at offsets 16
    and 17. *)
Theorem subchunk_1_size_is_never_read (host : byte_order)
    (stack : byte * byte * byte * byte) :
  (forall content,
     let r := LoadeWaveFile host stack content in
     subchunk_1_size (wave_file (final_state r)) = 0 /\
     match returned r with
     | Some w => subchunk_1_size w = 0
     | None => True
     end) /\
  (forall (b0 b1 b2 b3 b4 b5 b6 b7 b8 b9 b10 b11 b12 b13 b14 b15 b16 b17 : byte)
          (rest : list byte),
     let r := LoadeWaveFile host stack
                (Some (b0 :: b1 :: b2 :: b3 :: b4 :: b5 :: b6 :: b7 :: b8 :: b9
                       :: b10 :: b11 :: b12 :: b13 :: b14 :: b15 :: b16 :: b17
                       :: rest)) in
     subchunk_1_id (wave_file (final_state r)) = le_signed [b12; b13; b14; b15] /\
     audio_format (wave_file (final_state r)) = le_signed [b16; b17] /\
     match returned r with
     | Some w =>
         subchunk_1_id w = le_signed [b12; b13; b14; b15] /\
         audio_format w = le_signed [b16; b17]
     | None => True
     end).
Proof.
  split.
  - intros content r.
    pose proof (returned_wave_file r host stack content eq_refl) as Hw.
    assert (H : subchunk_1_size (wave_file (final_state r)) = 0).
    { subst r. unfold LoadeWaveFile.
      apply (preserves_run (fun s => subchunk_1_size (wave_file s) = 0)).
      - unfold LoadeWaveFile_body, read_fixed_fields.
        repeat preserves_step.
      - destruct stack as [[[g0 g1] g2] g3]. reflexivity. }
    clearbody r. split; [exact H | ].
    destruct (returned r) as [w | ]; [now rewrite Hw | exact I].
  - intros b0 b1 b2 b3 b4 b5 b6 b7 b8 b9 b10 b11 b12 b13 b14 b15 b16 b17 rest r.
    pose proof (returned_wave_file r host stack _ eq_refl) as Hw.
    assert (H : subchunk_1_id (wave_file (final_state r))
                = le_signed [b12; b13; b14; b15] /\
                audio_format (wave_file (final_state r)) = le_signed [b16; b17]).
    { subst r. destruct stack as [[[g0 g1] g2] g3].
      unfold LoadeWaveFile, LoadeWaveFile_body, read_fixed_fields, entry_state,
        ifstream_open.
      rewrite bind_assoc. run_with read_magic_exact.
      do 3 (rewrite bind_assoc; run_with read_field_4).
      rewrite bind_assoc; run_with read_field_2.
      apply (preserves_run
               (fun s => subchunk_1_id (wave_file s) = le_signed [b12; b13; b14; b15]
                         /\ audio_format (wave_file s) = le_signed [b16; b17])).
      - repeat preserves_step.
      - cbn [wave_file].
        cbv [set_audio_format set_subchunk_1_id set_format set_chunk_size
             set_chunk_id new_WaveFile subchunk_1_id audio_format
             chunk_id chunk_size format subchunk_1_size num_channels
             sample_rate byte_rate block_align bits_per_sample subchunk_2_id
             subchunk_2_size data].
        now rewrite convert_to_int_le_signed_4, convert_to_int_le_signed_2. }
    clearbody r. destruct H as [Hid Hfmt].
    split; [exact Hid | split; [exact Hfmt | ]].
    destruct (returned r) as [w | ]; [ | exact I].
    rewrite Hw. split; assumption.
Qed.

(** * Further properties of the decoder *)

(** The bytes [convert_to_int] copies: the first [len] of the buffer, the
    rest of [a] staying zero. *)
Lemma convert_to_int_padded (h : byte_order) (b : list byte) (len : Z) :
  0 <= len <= 4 ->
  convert_to_int h b len
  = to_int (le_unsigned
              (map (fun i => if i <? len then peek b i else x00) [0; 1; 2; 3])).
Proof.
  intros Hlen.
  assert (Hcases : len = 0 \/ len = 1 \/ len = 2 \/ len = 3 \/ len = 4) by lia.
  transitivity
    (convert_to_int h
       (map (fun i => if i <? len then peek b i else x00) [0; 1; 2; 3]) 4).
  - destruct Hcases as [-> | [-> | [-> | [-> | ->]]]]; destruct h; reflexivity.
  - apply convert_to_int_4.
Qed.

Lemma convert_to_int_any_host (b : list byte) (len : Z) :
  0 <= len <= 4 ->
  convert_to_int big_endian b len = convert_to_int little_endian b len.
Proof. intros Hlen. now rewrite !convert_to_int_padded. Qed.

(** X2 — the decoder at every length.  For a length from 0 to 4 and a
    buffer holding at least that many bytes, [convert_to_int] returns the
    little-endian reading of the first [len] bytes as an [int] (0 for
    length 0), and it returns the same number on a big-endian as on a
    little-endian host. *)
Theorem convert_to_int_prefix_value (h : byte_order) (buffer : list byte) (len : Z) :
  0 <= len <= 4 ->
  len <= Z.of_nat (length buffer) ->
  convert_to_int h buffer len
  = to_int (le_unsigned (firstn (Z.to_nat len) buffer)) /\
  convert_to_int big_endian buffer len = convert_to_int little_endian buffer len.
Proof.
  intros Hlen Hbuf. split; [ | now apply convert_to_int_any_host].
  rewrite convert_to_int_padded by exact Hlen.
  assert (Hcases : len = 0 \/ len = 1 \/ len = 2 \/ len = 3 \/ len = 4) by lia.
  f_equal.
  destruct buffer as [| b0 [| b1 [| b2 [| b3 r]]]]; cbn [length] in Hbuf;
    destruct Hcases as [-> | [-> | [-> | [-> | ->]]]]; try lia;
    cbv [map firstn Z.to_nat Pos.to_nat Pos.iter_op Nat.add peek nth Z.ltb
         Z.compare Pos.compare Pos.compare_cont];
    cbn [le_unsigned]; change (uchar x00) with 0; lia.
Qed.

Lemma char_of_Z_uchar (b : byte) : char_of_Z (uchar b) = b.
Proof.
  unfold char_of_Z, uchar.
  pose proof (Byte.to_N_bounded b) as Hb.
  rewrite Z.mod_small by lia.
  now rewrite N2Z.id, Byte.of_to_N.
Qed.

(** Peeling the low byte off a number. *)
Lemma le_bytes_step (v q : Z) (b : byte) :
  v = uchar b + 256 * q -> char_of_Z v = b /\ Z.shiftr v 8 = q.
Proof.
  intros ->. pose proof (uchar_range b) as Hb. split.
  - unfold char_of_Z.
    replace (uchar b + 256 * q) with (uchar b + q * 256) by lia.
    rewrite Z_mod_plus_full. apply char_of_Z_uchar.
  - rewrite Z.shiftr_div_pow2 by lia. change (2 ^ 8) with 256.
    symmetry. apply Z.div_unique with (r := uchar b); lia.
Qed.

Lemma wrap_shift (bits z : Z) :
  0 < bits -> exists c, wrap bits z = z + 2 ^ bits * c.
Proof.
  intros Hb. unfold wrap.
  pose proof (Z.div_mod z (2 ^ bits)) as Hdm.
  assert (Hp : 0 < 2 ^ bits) by (apply Z.pow_pos_nonneg; lia).
  destruct (z mod 2 ^ bits <? 2 ^ (bits - 1)).
  - exists (- (z / 2 ^ bits)). lia.
  - exists (- (z / 2 ^ bits) - 1). lia.
Qed.

Lemma le_bytes_cons (n : nat) (b : byte) (q : Z) :
  le_bytes (S n) (uchar b + 256 * q) = b :: le_bytes n q.
Proof.
  cbn [le_bytes].
  now destruct (le_bytes_step (uchar b + 256 * q) q b eq_refl) as [-> ->].
Qed.

(** X1 — decoding loses nothing: written back least significant byte
    first, the [int] decoded from four bytes gives the four bytes, and the
    [short] stored from two bytes gives the two bytes, on either host. *)
Theorem convert_to_int_round_trip (h : byte_order) (b0 b1 b2 b3 : byte)
    (rest : list byte) :
  le_bytes 4 (convert_to_int h [b0; b1; b2; b3] 4) = [b0; b1; b2; b3] /\
  le_bytes 2 (to_short (convert_to_int h (b0 :: b1 :: rest) 2)) = [b0; b1].
Proof.
  split.
  - rewrite convert_to_int_4.
    destruct (wrap_shift 32 (le_unsigned [b0; b1; b2; b3])) as [c Hc]; [lia | ].
    fold to_int in Hc. rewrite Hc. cbn [le_unsigned].
    replace (uchar b0 + 256 * (uchar b1 + 256 * (uchar b2 + 256 * (uchar b3 + 256 * 0)))
             + 2 ^ 32 * c)
      with (uchar b0 + 256 * (uchar b1 + 256 * (uchar b2 + 256 * (uchar b3 + 256 * c))))
      by (change (2 ^ 32) with 4294967296; lia).
    now rewrite !le_bytes_cons.
  - rewrite convert_to_int_2.
    destruct (wrap_shift 16 (le_unsigned [b0; b1])) as [c Hc]; [lia | ].
    fold to_short in Hc. rewrite Hc. cbn [le_unsigned].
    replace (uchar b0 + 256 * (uchar b1 + 256 * 0) + 2 ^ 16 * c)
      with (uchar b0 + 256 * (uchar b1 + 256 * c))
      by (change (2 ^ 16) with 65536; lia).
    now rewrite !le_bytes_cons.
Qed.

Lemma convert_to_int_prefix_value_witness :
  0 <= 3 <= 4 /\
  3 <= Z.of_nat (length [x01; x02; x03; xff]) /\
  convert_to_int big_endian [x01; x02; x03; xff] 3
  = to_int (le_unsigned (firstn (Z.to_nat 3) [x01; x02; x03; xff])) /\
  convert_to_int big_endian [x01; x02; x03; xff] 3
  = convert_to_int little_endian [x01; x02; x03; xff] 3.
Proof.
  assert (H3 : 0 <= 3 <= 4) by lia.
  assert (Hb : 3 <= Z.of_nat (length [x01; x02; x03; xff])) by (simpl; lia).
  split; [exact H3 | ]. split; [exact Hb | ].
  exact (convert_to_int_prefix_value big_endian [x01; x02; x03; xff] 3 H3 Hb).
Defined.

(** * Further properties of the loader *)

Lemma bind_ext {A B : Type} (m m' : M A) (k k' : A -> M B) (s : state) :
  m s = m' s -> (forall a s', k a s' = k' a s') -> bind m k s = bind m' k' s.
Proof.
  intros Hm Hk. unfold bind. rewrite Hm.
  destruct (m' s); [apply Hk | reflexivity].
Qed.

Lemma decode_any_host (len : Z) (s : state) :
  0 <= len <= 4 -> decode big_endian len s = decode little_endian len s.
Proof. intros Hlen. unfold decode. now rewrite convert_to_int_any_host. Qed.

Lemma read_field_any_host (len : Z) (set : Z -> WaveFile -> WaveFile) (s : state) :
  0 <= len <= 4 ->
  read_field big_endian len set s = read_field little_endian len set s.
Proof.
  intros Hlen. unfold read_field.
  apply bind_ext; [reflexivity | intros _ s1].
  apply bind_ext; [now apply decode_any_host | reflexivity].
Qed.

Lemma read_magic_any_host (s : state) :
  read_magic big_endian s = read_magic little_endian s.
Proof.
  unfold read_magic.
  apply bind_ext; [reflexivity | intros _ s1].
  apply bind_ext; [reflexivity | intros buf s2].
  apply bind_ext; [reflexivity | intros _ s3].
  apply bind_ext; [apply decode_any_host; lia | reflexivity].
Qed.

Lemma read_fixed_fields_any_host (s : state) :
  read_fixed_fields big_endian s = read_fixed_fields little_endian s.
Proof.
  unfold read_fixed_fields.
  apply bind_ext; [apply read_magic_any_host | intros _ ?].
  repeat (apply bind_ext; [apply read_field_any_host; lia | intros _ ?]).
  apply read_field_any_host; lia.
Qed.

Lemma skip_extra_chunk_any_host (s : state) :
  skip_extra_chunk big_endian s = skip_extra_chunk little_endian s.
Proof.
  unfold skip_extra_chunk.
  apply bind_ext; [reflexivity | intros buf s1].
  destruct (negb _).
  - apply bind_ext; [reflexivity | intros _ s2].
    apply bind_ext; [apply decode_any_host; lia | intros n s3].
    apply bind_ext; [reflexivity | intros p s4].
    apply bind_ext; [reflexivity | intros _ s5].
    apply read_field_any_host; lia.
  - apply bind_ext; [apply decode_any_host; lia | reflexivity].
Qed.

Lemma read_data_chunk_any_host (s : state) :
  read_data_chunk big_endian s = read_data_chunk little_endian s.
Proof.
  unfold read_data_chunk.
  apply bind_ext; [apply read_field_any_host; lia | reflexivity].
Qed.

(** X3 — the loader as a whole does not depend on the byte order of the
    host: on every input and whatever the stack held, it returns the same
    record, prints the same text and leaves the same state (or raises in
    the same state) on a big-endian as on a little-endian machine. *)
Theorem LoadeWaveFile_host_independent (stack : byte * byte * byte * byte)
    (content : option (list byte)) :
  LoadeWaveFile big_endian stack content
  = LoadeWaveFile little_endian stack content.
Proof.
  unfold LoadeWaveFile, LoadeWaveFile_body.
  apply bind_ext; [apply read_fixed_fields_any_host | intros _ s1].
  apply bind_ext.
  - unfold locate_data_chunk.
    apply bind_ext; [reflexivity | intros _ s2].
    apply skip_extra_chunk_any_host.
  - intros _ s2.
    apply bind_ext; [apply read_data_chunk_any_host | reflexivity].
Qed.

(** X6 — the uninitialised buffer does not show once four bytes were
    read: on a stream of at least four bytes the outcome is the same
    whatever the stack held. *)
Theorem stack_contents_do_not_matter (host : byte_order)
    (stack stack' : byte * byte * byte * byte) (t0 t1 t2 t3 : byte)
    (rest : list byte) :
  LoadeWaveFile host stack (Some (t0 :: t1 :: t2 :: t3 :: rest))
  = LoadeWaveFile host stack' (Some (t0 :: t1 :: t2 :: t3 :: rest)).
Proof.
  destruct stack as [[[g0 g1] g2] g3]. destruct stack' as [[[g0' g1'] g2'] g3'].
  unfold LoadeWaveFile, LoadeWaveFile_body, read_fixed_fields, entry_state,
    ifstream_open.
  rewrite !(bind_assoc (read_magic host)).
  rewrite (bind_Normal _ _ _ _ _
             (read_magic_exact host t0 t1 t2 t3 g0 g1 g2 g3 rest [] new_WaveFile)).
  rewrite (bind_Normal _ _ _ _ _
             (read_magic_exact host t0 t1 t2 t3 g0' g1' g2' g3' rest []
                new_WaveFile)).
  reflexivity.
Qed.

(** X4 — the layout the loader reads.  On a stream made of the thirty-two
    bytes of the fixed fields, a data chunk located as the loader locates
    it, a size and as many payload bytes as the size says, the loader
    returns the record whose members are the little-endian readings at the
    offsets it uses (no Subchunk1Size among them, [subchunk_1_size]
    staying 0) and whose payload is the payload bytes, unchanged.  The
    stream stays good, and what follows the payload is left unread. *)
Theorem well_formed_stream_is_loaded (host : byte_order)
    (stack : byte * byte * byte * byte)
    (prefix id size pl trailing : list byte) :
  located prefix id ->
  length size = 4%nat ->
  le_signed size = Z.of_nat (length pl) ->
  let w :=
    {| chunk_id := le_signed (slice 0 4 prefix);
       chunk_size := le_signed (slice 4 4 prefix);
       format := le_signed (slice 8 4 prefix);
       subchunk_1_id := le_signed (slice 12 4 prefix);
       subchunk_1_size := 0;
       audio_format := le_signed (slice 16 2 prefix);
       num_channels := le_signed (slice 18 2 prefix);
       sample_rate := le_signed (slice 20 4 prefix);
       byte_rate := le_signed (slice 24 4 prefix);
       block_align := le_signed (slice 28 2 prefix);
       bits_per_sample := le_signed (slice 30 2 prefix);
       subchunk_2_id := le_signed id;
       subchunk_2_size := Z.of_nat (length pl);
       data := Some {| capacity := Z.of_nat (length pl); initialized := pl |} |} in
  LoadeWaveFile host stack (Some (prefix ++ size ++ pl ++ trailing))
  = Normal w
      {| file := {| unread := trailing; good := true |};
         buffer := size;
         console := diagnostics (slice 0 4 prefix);
         wave_file := w |} /\
  partially_populated w = false.
Proof.
  intros Hloc Hsize Hpl w.
  split.
  - rewrite (LoadeWaveFile_located host stack prefix id size (pl ++ trailing)
               Hloc Hsize).
    rewrite Hpl.
    destruct (Z.ltb_spec (Z.of_nat (length pl)) 0) as [Hneg | _]; [lia | ].
    rewrite istream_read_exact. cbn [fst snd].
    assert (Hslices : forall off len, (off + len <= 32)%nat ->
              slice off len (slice 0 32 prefix) = slice off len prefix).
    { intros off len Hol.
      destruct Hloc as [fields Hf | fields ? ? ? ? Hf];
        rewrite (slice_fields_32 fields _ Hf);
        symmetry; apply slice_app; lia. }
    assert (Ew : set_data {| capacity := Z.of_nat (length pl); initialized := pl |}
                   (set_subchunk_2_size (Z.of_nat (length pl))
                      (set_subchunk_2_id (le_signed id)
                         (fixed_fields_of (slice 0 32 prefix) new_WaveFile)))
                 = w).
    { subst w. unfold fixed_fields_of.
      cbv [set_data set_subchunk_2_size set_subchunk_2_id new_WaveFile
           chunk_id chunk_size format subchunk_1_id subchunk_1_size audio_format
           num_channels sample_rate byte_rate block_align bits_per_sample
           subchunk_2_id subchunk_2_size data].
      rewrite !Hslices by lia. reflexivity. }
    rewrite Ew. reflexivity.
  - subst w. unfold partially_populated. cbn [data capacity initialized].
    apply Z.ltb_irrefl.
Qed.

Lemma well_formed_stream_is_loaded_witness :
  located (fixed_fields_pcm ++ bytes_of "data") (bytes_of "data") /\
  length [x04; x00; x00; x00] = 4%nat /\
  le_signed [x04; x00; x00; x00] = Z.of_nat (length [x01; x02; x03; x04]) /\
  returned
    (LoadeWaveFile little_endian zero_stack
       (Some ((fixed_fields_pcm ++ bytes_of "data") ++ [x04; x00; x00; x00]
              ++ [x01; x02; x03; x04] ++ [xee])))
  = Some {| chunk_id := 1179011410; chunk_size := 40; format := 1163280727;
            subchunk_1_id := 544501094; subchunk_1_size := 0;
            audio_format := 1; num_channels := 1;
            sample_rate := 8000; byte_rate := 8000;
            block_align := 1; bits_per_sample := 8;
            subchunk_2_id := 1635017060; subchunk_2_size := 4;
            data := Some {| capacity := 4;
                            initialized := [x01; x02; x03; x04] |} |}.
Proof.
  assert (Hloc : located (fixed_fields_pcm ++ bytes_of "data") (bytes_of "data"))
    by (apply located_lookahead; reflexivity).
  assert (Hpl : le_signed [x04; x00; x00; x00]
                = Z.of_nat (length [x01; x02; x03; x04])) by reflexivity.
  split; [exact Hloc | ]. split; [reflexivity | ]. split; [exact Hpl | ].
  destruct (well_formed_stream_is_loaded little_endian zero_stack
              (fixed_fields_pcm ++ bytes_of "data") (bytes_of "data")
              [x04; x00; x00; x00] [x01; x02; x03; x04] [xee]
              Hloc eq_refl Hpl) as [E _].
  rewrite E. vm_compute. reflexivity.
Defined.

(** X8 — a payload size with its top bit set.  When the four bytes of the
    size decode to a negative [int], the loader returns no record: the
    allocation of the payload array throws, after [subchunk_2_size] was
    assigned and before anything of the payload is read, with the stream
    standing right after the size. *)
Theorem negative_payload_size_raises (host : byte_order)
    (stack : byte * byte * byte * byte) (prefix id size rest : list byte) :
  located prefix id ->
  length size = 4%nat ->
  le_signed size < 0 ->
  exists s,
    LoadeWaveFile host stack (Some (prefix ++ size ++ rest))
    = Raised bad_alloc s /\
    subchunk_2_size (wave_file s) = le_signed size /\
    data (wave_file s) = None /\
    file s = {| unread := rest; good := true |}.
Proof.
  intros Hloc Hsize Hneg.
  rewrite (LoadeWaveFile_located host stack prefix id size rest Hloc Hsize).
  destruct (Z.ltb_spec (le_signed size) 0) as [_ | Hpos]; [ | lia].
  eexists. split; [reflexivity | ].
  cbn [wave_file file]. repeat split.
Qed.

Lemma negative_payload_size_raises_witness :
  located (fixed_fields_pcm ++ bytes_of "data") (bytes_of "data") /\
  length [x00; x00; x00; x80] = 4%nat /\
  le_signed [x00; x00; x00; x80] < 0 /\
  exists s,
    LoadeWaveFile big_endian zero_stack
      (Some ((fixed_fields_pcm ++ bytes_of "data") ++ [x00; x00; x00; x80]
             ++ [x01; x02]))
    = Raised bad_alloc s /\
    subchunk_2_size (wave_file s) = le_signed [x00; x00; x00; x80] /\
    data (wave_file s) = None /\
    file s = {| unread := [x01; x02]; good := true |}.
Proof.
  assert (Hloc : located (fixed_fields_pcm ++ bytes_of "data") (bytes_of "data"))
    by (apply located_lookahead; reflexivity).
  assert (Hneg : le_signed [x00; x00; x00; x80] < 0) by (vm_compute; reflexivity).
  split; [exact Hloc | ]. split; [reflexivity | ]. split; [exact Hneg | ].
  exact (negative_payload_size_raises big_endian zero_stack
           (fixed_fields_pcm ++ bytes_of "data") (bytes_of "data")
           [x00; x00; x00; x80] [x01; x02] Hloc eq_refl Hneg).
Defined.

(** X9 — an extra chunk whose length has its top bit set.  When the
    lookahead is not "data" and the four bytes after it decode to a
    negative [int], the loader returns no record: the allocation of
    [_extra_data] throws, before [subchunk_2_id] is assigned and with
    nothing of the extra chunk read, the stream standing right after the
    length. *)
Theorem negative_extra_length_raises (host : byte_order)
    (stack : byte * byte * byte * byte) (fields tag len rest : list byte) :
  length fields = 32%nat ->
  length tag = 4%nat -> tag <> bytes_of "data" ->
  length len = 4%nat -> le_signed len < 0 ->
  exists s,
    LoadeWaveFile host stack (Some (fields ++ tag ++ len ++ rest))
    = Raised bad_alloc s /\
    wave_file s = fixed_fields_of fields new_WaveFile /\
    file s = {| unread := rest; good := true |}.
Proof.
  intros Hf Ht Hne Hl Hneg.
  destruct stack as [[[g0 g1] g2] g3].
  unfold LoadeWaveFile, LoadeWaveFile_body, entry_state, ifstream_open.
  destruct (read_fixed_fields_exact host fields (tag ++ len ++ rest)
              [g0; g1; g2; g3] [] new_WaveFile Hf eq_refl)
    as (g' & Hg' & Efix).
  rewrite (bind_Normal _ _ _ _ _ Efix).
  explicit_list tag Ht. explicit_list len Hl. explicit_list g' Hg'.
  cbn [app]. unfold locate_data_chunk.
  rewrite bind_assoc. run_with file_read_4.
  unfold skip_extra_chunk.
  rewrite bind_assoc. run_with get_buffer_run. cbn [buffer].
  match goal with
  | |- context [strncmp ?t data_tag 4 =? 0] =>
      destruct (Z.eqb_spec (strncmp t data_tag 4) 0) as [E | _]
  end.
  { apply strncmp_data_tag in E. contradiction. }
  cbn [negb].
  rewrite !bind_assoc. run_with file_read_4.
  rewrite !bind_assoc. run_with (decode_run host). cbn [buffer].
  rewrite convert_to_int_le_signed_4.
  rewrite !bind_assoc. unfold new_char_array at 1. unfold bind at 1.
  match goal with
  | |- context [le_signed ?l <? 0] =>
      destruct (Z.ltb_spec (le_signed l) 0) as [_ | Hpos]; [ | lia]
  end.
  eexists. split; [reflexivity | ]. split; reflexivity.
Qed.

Lemma negative_extra_length_raises_witness :
  length fixed_fields_pcm = 32%nat /\
  length (bytes_of "LIST") = 4%nat /\ bytes_of "LIST" <> bytes_of "data" /\
  length [xff; xff; xff; xff] = 4%nat /\ le_signed [xff; xff; xff; xff] < 0 /\
  exists s,
    LoadeWaveFile little_endian zero_stack
      (Some (fixed_fields_pcm ++ bytes_of "LIST" ++ [xff; xff; xff; xff]
             ++ bytes_of "data"))
    = Raised bad_alloc s /\
    wave_file s = fixed_fields_of fixed_fields_pcm new_WaveFile /\
    file s = {| unread := bytes_of "data"; good := true |}.
Proof.
  assert (Hne : bytes_of "LIST" <> bytes_of "data") by discriminate.
  assert (Hneg : le_signed [xff; xff; xff; xff] < 0) by (vm_compute; reflexivity).
  split; [reflexivity | ]. split; [reflexivity | ]. split; [exact Hne | ].
  split; [reflexivity | ]. split; [exact Hneg | ].
  exact (negative_extra_length_raises little_endian zero_stack
           fixed_fields_pcm (bytes_of "LIST") [xff; xff; xff; xff]
           (bytes_of "data") eq_refl eq_refl Hne eq_refl Hneg).
Defined.

(** X7 — what the loader prints.  On a stream of at least four bytes,
    standard output holds, when the loader stops, the one diagnostic line
    if the first four bytes are not "RIFF" and nothing if they are,
    whatever bytes follow them. *)
Theorem diagnostic_depends_on_the_magic_only (host : byte_order)
    (stack : byte * byte * byte * byte) (t0 t1 t2 t3 : byte) (rest : list byte) :
  console (final_state
             (LoadeWaveFile host stack (Some (t0 :: t1 :: t2 :: t3 :: rest))))
  = if list_eq_dec Byte.byte_eq_dec [t0; t1; t2; t3] (bytes_of "RIFF")
    then []
    else [not_valid_message].
Proof.
  destruct stack as [[[g0 g1] g2] g3].
  unfold LoadeWaveFile, LoadeWaveFile_body, read_fixed_fields, entry_state,
    ifstream_open.
  rewrite bind_assoc. run_with read_magic_exact.
  apply (preserves_run
           (fun s => console s
                     = if list_eq_dec Byte.byte_eq_dec [t0; t1; t2; t3]
                                      (bytes_of "RIFF")
                       then [] else [not_valid_message])).
  { repeat preserves_step. }
  cbn [console app]. unfold diagnostics.
  destruct (list_eq_dec Byte.byte_eq_dec [t0; t1; t2; t3] (bytes_of "RIFF"))
    as [E | Hne];
    destruct (Z.eqb_spec (strncmp [t0; t1; t2; t3] RIFF 4) 0) as [E' | Hne'];
    try reflexivity.
  - exfalso. apply Hne'. apply strncmp_RIFF. exact E.
  - exfalso. apply strncmp_RIFF in E'. cbn [firstn] in E'. contradiction.
Qed.

(** X5 — a path that cannot be opened, and an empty file.  The two are
    indistinguishable, and neither is reported: no byte being read, every
    member is decoded from what the stack left in the buffer.  With [v]
    the [int] and [h] the [short] those four characters decode to, the
    loader returns a record whose [int] members (but [subchunk_1_size],
    still 0) are all [v], whose [short] members are all [h], and whose
    payload array has [v] cells, none written; when [v] is negative the
    array allocation raises instead.  The diagnostic is printed unless the
    stack happened to hold "RIFF". *)
Theorem unreadable_file_is_loaded_from_the_stack (host : byte_order)
    (g0 g1 g2 g3 : byte) :
  let stack := (g0, g1, g2, g3) in
  let v := le_signed [g0; g1; g2; g3] in
  let h := le_signed [g0; g1] in
  let r := LoadeWaveFile host stack None in
  LoadeWaveFile host stack (Some []) = r /\
  console (final_state r) = diagnostics [g0; g1; g2; g3] /\
  returned r
  = if v <? 0 then None
    else Some {| chunk_id := v; chunk_size := v; format := v;
                 subchunk_1_id := v; subchunk_1_size := 0;
                 audio_format := h; num_channels := h;
                 sample_rate := v; byte_rate := v;
                 block_align := h; bits_per_sample := h;
                 subchunk_2_id := v; subchunk_2_size := v;
                 data := Some {| capacity := v; initialized := [] |} |}.
Proof.
  intros stack v h r.
  assert (Eempty : LoadeWaveFile host stack (Some []) = r).
  { subst r stack.
    unfold LoadeWaveFile, LoadeWaveFile_body, read_fixed_fields, read_magic.
    rewrite !bind_assoc.
    assert (E1 : file_read 4 (entry_state (g0, g1, g2, g3) (Some []))
                 = Normal tt (entry_state (g0, g1, g2, g3) None))
      by reflexivity.
    assert (E2 : file_read 4 (entry_state (g0, g1, g2, g3) None)
                 = Normal tt (entry_state (g0, g1, g2, g3) None))
      by reflexivity.
    now rewrite (bind_Normal _ _ _ _ _ E1), (bind_Normal _ _ _ _ _ E2). }
  split; [exact Eempty | ]. clear Eempty.
  assert (Er : r = if v <? 0
                   then Raised bad_alloc
                          {| file := {| unread := []; good := false |};
                             buffer := [g0; g1; g2; g3];
                             console := diagnostics [g0; g1; g2; g3];
                             wave_file :=
                               {| chunk_id := v; chunk_size := v; format := v;
                                  subchunk_1_id := v; subchunk_1_size := 0;
                                  audio_format := h; num_channels := h;
                                  sample_rate := v; byte_rate := v;
                                  block_align := h; bits_per_sample := h;
                                  subchunk_2_id := 0; subchunk_2_size := 0;
                                  data := None |} |}
                   else let w :=
                          {| chunk_id := v; chunk_size := v; format := v;
                             subchunk_1_id := v; subchunk_1_size := 0;
                             audio_format := h; num_channels := h;
                             sample_rate := v; byte_rate := v;
                             block_align := h; bits_per_sample := h;
                             subchunk_2_id := v; subchunk_2_size := v;
                             data := Some {| capacity := v; initialized := [] |} |} in
                        Normal w
                          {| file := {| unread := []; good := false |};
                             buffer := [g0; g1; g2; g3];
                             console := diagnostics [g0; g1; g2; g3];
                             wave_file := w |}).
  { subst r stack.
    unfold LoadeWaveFile. rewrite LoadeWaveFile_body_split.
    unfold entry_state, ifstream_open, read_fixed_fields.
    rewrite !bind_assoc.
    erewrite bind_Normal by (apply read_magic_drained; reflexivity). cbv beta.
    do 9 (rewrite ?bind_assoc;
          erewrite bind_Normal
            by (apply read_field_drained_explicit; reflexivity);
          cbv beta).
    erewrite bind_Normal by (apply file_read_drained; reflexivity). cbv beta.
    rewrite drained_tail by reflexivity.
    cbn [buffer wave_file with_wave_file file console app].
    rewrite !convert_to_int_le_signed_4.
    fold v.
    cbv [set_data set_subchunk_2_size set_subchunk_2_id
         set_bits_per_sample set_block_align set_byte_rate set_sample_rate
         set_num_channels set_audio_format set_subchunk_1_id set_format
         set_chunk_size set_chunk_id new_WaveFile
         chunk_id chunk_size format subchunk_1_id subchunk_1_size audio_format
         num_channels sample_rate byte_rate block_align bits_per_sample
         subchunk_2_id subchunk_2_size data].
    rewrite !convert_to_int_le_signed_2. fold h.
    reflexivity. }
  clearbody r. subst r.
  destruct (v <? 0); cbn [final_state console returned]; split; reflexivity.
Qed.
